(** * IP-Blocklist-Validator: a shallow embedding of [main.py]

    The development follows the Python source function by function.

    Conventions of the embedding
    - A Python [str] is a Rocq [string]: a sequence of code points below 256
      (the Latin-1 range of Unicode).  [len], slicing, [strip] and [split]
      act on code points; the size of a written file is the length of its
      UTF-8 encoding, one byte below U+0080 and two bytes from there on.
    - A Python [dict] is an association list in insertion order with
      unique keys; a Python [set] is a [gset]; [list(s)] of a set is
      [elements s] (Python leaves the order open, the statements below only
      speak of membership and of the number of elements).
    - An exception is the [Raise] case of [result]; code that touches the
      file system, the log, the registry service or git runs in the monad
      [M] over the record [world].
    - The standard module [ipaddress] (CPython 3.9.5 to 3.12) is embedded
      in [Module ipaddress], from its source. *)

From Stdlib Require Import ZArith NArith Ascii String Permutation Sorted.
From stdpp Require Import gmap strings list.
From stdpp Require sorting.

Local Open Scope string_scope.
Local Open Scope list_scope.

(** stdpp's solvers clear hypotheses that may already be gone. *)
#[local] Set Warnings "-clear-no-such-hyp".

(** [simpl] unfolds [++] on strings again. *)
#[local] Arguments String.append !s1 s2 : simpl nomatch.

(** ** Exceptions *)

(** [GitError] stands for whatever GitPython raises ([GitCommandError],
    [BadName], [NoSuchPathError], ...): all of them are [Exception]s. *)
Inductive exn : Set :=
| ValueError
| TypeError
| UnboundLocalError
| SystemExit (code : Z)
| GitError.

(** What [except Exception] catches: [SystemExit] is a [BaseException]
    only. *)
Definition is_Exception (e : exn) : bool :=
  match e with
  | SystemExit _ => false
  | _ => true
  end.

Inductive result (A : Type) : Type :=
| Ok (a : A)
| Raise (e : exn).
Arguments Ok {A} a.
Arguments Raise {A} e.

Definition rbind {A B} (r : result A) (k : A -> result B) : result B :=
  match r with
  | Ok a => k a
  | Raise e => Raise e
  end.

(** ** Python string operations *)

Module Py.

(** [c in s] for a one-character [c]. *)
Fixpoint contains (c : ascii) (s : string) : bool :=
  match s with
  | EmptyString => false
  | String a s' => Ascii.eqb a c || contains c s'
  end.

(** [s.split(sep)] for a one-character separator. *)
Fixpoint split (sep : ascii) (s : string) : list string :=
  match s with
  | EmptyString => [EmptyString]
  | String a s' =>
      if Ascii.eqb a sep then EmptyString :: split sep s'
      else match split sep s' with
           | [] => [String a EmptyString]
           | p :: ps => String a p :: ps
           end
  end.

(** [s.partition(sep)]: [None] when [sep] does not occur, else the text
    before and after its first occurrence. *)
Fixpoint partition (sep : ascii) (s : string) : option (string * string) :=
  match s with
  | EmptyString => None
  | String a s' =>
      if Ascii.eqb a sep then Some (EmptyString, s')
      else match partition sep s' with
           | Some (l, r) => Some (String a l, r)
           | None => None
           end
  end.

(** The same at the last occurrence of [sep]. *)
Fixpoint rpartition (sep : ascii) (s : string) : option (string * string) :=
  match s with
  | EmptyString => None
  | String a s' =>
      match rpartition sep s' with
      | Some (l, r) => Some (String a l, r)
      | None => if Ascii.eqb a sep then Some (EmptyString, s') else None
      end
  end.

(** [s.split(sep, 1)]. *)
Definition split1 (sep : ascii) (s : string) : list string :=
  match partition sep s with
  | Some (l, r) => [l; r]
  | None => [s]
  end.

(** [s.rsplit(sep, 1)[0]]. *)
Definition rsplit1_head (sep : ascii) (s : string) : string :=
  match rpartition sep s with
  | Some (l, _) => l
  | None => s
  end.

Fixpoint lstrip (p : ascii -> bool) (s : string) : string :=
  match s with
  | EmptyString => EmptyString
  | String a s' => if p a then lstrip p s' else s
  end.

Fixpoint rstrip (p : ascii -> bool) (s : string) : string :=
  match s with
  | EmptyString => EmptyString
  | String a s' =>
      match rstrip p s' with
      | EmptyString => if p a then EmptyString else String a EmptyString
      | r => String a r
      end
  end.

(** The characters [str.strip()] removes, among the code points below 256. *)
Definition isspace (a : ascii) : bool :=
  let n := N_of_ascii a in
  ((9 <=? n) && (n <=? 13) || (28 <=? n) && (n <=? 32)
   || (n =? 133) || (n =? 160))%N.

(** [s.strip()]. *)
Definition strip (s : string) : string := rstrip isspace (lstrip isspace s).

(** [s.strip(chars)]. *)
Definition strip_chars (chars : string) (s : string) : string :=
  rstrip (fun a => contains a chars) (lstrip (fun a => contains a chars) s).

(** [s.startswith(p)]. *)
Definition startswith (p s : string) : bool := String.prefix p s.

(** [s.endswith(c)] for a one-character [c]. *)
Fixpoint endswith_char (c : ascii) (s : string) : bool :=
  match s with
  | EmptyString => false
  | String a EmptyString => Ascii.eqb a c
  | String _ s' => endswith_char c s'
  end.

(** [p in s] for strings. *)
Fixpoint substring_in (p s : string) : bool :=
  String.prefix p s ||
  match s with
  | EmptyString => false
  | String _ s' => substring_in p s'
  end.

Fixpoint take (n : nat) (s : string) : string :=
  match n, s with
  | S n', String a s' => String a (take n' s')
  | _, _ => EmptyString
  end.

Definition len (s : string) : Z := Z.of_nat (String.length s).

(** [s[:k]]: a negative [k] counts from the end. *)
Definition slice_to (k : Z) (s : string) : string :=
  if (0 <=? k)%Z then take (Z.to_nat k) s
  else take (Z.to_nat (len s + k)) s.

Fixpoint all_chars (p : ascii -> bool) (s : string) : bool :=
  match s with
  | EmptyString => true
  | String a s' => p a && all_chars p s'
  end.

(** [sep.join(parts)]. *)
Definition join (sep : string) (parts : list string) : string :=
  String.concat sep parts.

Definition digit_char (d : N) : ascii :=
  ascii_of_N (if (d <? 10)%N then 48 + d else 87 + d).

Fixpoint digits (fuel : nat) (base n : N) (acc : string) : string :=
  match fuel with
  | O => acc
  | S fuel' =>
      let acc' := String (digit_char (n mod base)) acc in
      if (n / base =? 0)%N then acc' else digits fuel' base (n / base) acc'
  end.

(** [str(n)] and ['%x' % n] for a natural number. *)
Definition str_int (n : N) : string := digits (S (N.to_nat (N.log2 n))) 10 n "".
Definition hex_int (n : N) : string := digits (S (N.to_nat (N.log2 n))) 16 n "".

Definition is_digit (a : ascii) : bool :=
  let n := N_of_ascii a in ((48 <=? n) && (n <=? 57))%N.

Definition is_hex_digit (a : ascii) : bool :=
  let n := N_of_ascii a in
  ((48 <=? n) && (n <=? 57) || (65 <=? n) && (n <=? 70)
   || (97 <=? n) && (n <=? 102))%N.

Definition digit_value (a : ascii) : N :=
  let n := N_of_ascii a in
  (if n <=? 57 then n - 48 else if n <=? 70 then n - 55 else n - 87)%N.

(** [int(s, base)] for a string of digits of that base. *)
Fixpoint int_of_digits (base : N) (acc : N) (s : string) : N :=
  match s with
  | EmptyString => acc
  | String a s' => int_of_digits base (acc * base + digit_value a)%N s'
  end.

(** The line feed and the carriage return. *)
Definition LF : ascii := "010".
Definition CR : ascii := "013".

(** Number of bytes of the UTF-8 encoding. *)
Fixpoint utf8_size (s : string) : Z :=
  match s with
  | EmptyString => 0
  | String a s' => (if (N_of_ascii a <? 128)%N then 1 else 2) + utf8_size s'
  end%Z.

(** Text-mode reading with universal newlines: a carriage return, alone or
    followed by a line feed, is read as one line feed. *)
Fixpoint universal_newlines (s : string) : string :=
  match s with
  | EmptyString => EmptyString
  | String a s' =>
      if Ascii.eqb a CR then
        match s' with
        | String b s'' =>
            if Ascii.eqb b LF then String LF (universal_newlines s'')
            else String LF (universal_newlines s')
        | EmptyString => String LF EmptyString
        end
      else String a (universal_newlines s')
  end.

(** The lines of a text, each with its line feed; a last line without one
    is a line too. *)
Fixpoint lines_keep (s : string) : list string :=
  match s with
  | EmptyString => []
  | String a s' =>
      if Ascii.eqb a LF then String a EmptyString :: lines_keep s'
      else match lines_keep s' with
           | [] => [String a EmptyString]
           | l :: ls => String a l :: ls
           end
  end.

(** [for line in file] of a file opened in text mode. *)
Definition file_lines (content : string) : list string :=
  lines_keep (universal_newlines content).

End Py.

(** ** The standard module [ipaddress]

    [None] stands for [AddressValueError] or [NetmaskValueError] inside the
    module; [ip_address] and [ip_network] turn it into [ValueError]. *)

Module ipaddress.

Inductive address : Set :=
| IPv4Address (ip : N)
| IPv6Address (ip : N) (scope_id : option string).

Record network : Set := Network {
  network_address : address;
  prefixlen : N
}.

Definition int_of (a : address) : N :=
  match a with
  | IPv4Address ip => ip
  | IPv6Address ip _ => ip
  end.

Definition max_prefixlen (a : address) : N :=
  match a with
  | IPv4Address _ => 32
  | IPv6Address _ _ => 128
  end.

#[global] Instance address_eq_dec : EqDecision address.
Proof. solve_decision. Defined.

#[global] Instance network_eq_dec : EqDecision network.
Proof. solve_decision. Defined.

#[global] Instance address_countable : Countable address.
Proof.
  refine (inj_countable'
    (fun a => match a with
              | IPv4Address ip => inl ip
              | IPv6Address ip sc => inr (ip, sc)
              end)
    (fun x => match x with
              | inl ip => IPv4Address ip
              | inr (ip, sc) => IPv6Address ip sc
              end) _).
  intros []; reflexivity.
Defined.

#[global] Instance network_countable : Countable network.
Proof.
  refine (inj_countable'
    (fun n => (network_address n, prefixlen n))
    (fun x => Network (fst x) (snd x)) _).
  intros []; reflexivity.
Defined.

(** *** IPv4 *)

(** [IPv4Address._parse_octet]. *)
Definition parse_octet (octet_str : string) : option N :=
  if String.eqb octet_str "" then None
  else if negb (Py.all_chars Py.is_digit octet_str) then None
  else if (3 <? String.length octet_str)%nat then None
  else if negb (String.eqb octet_str "0") && Py.startswith "0" octet_str
  then None
  else
    let octet_int := Py.int_of_digits 10 0 octet_str in
    if (255 <? octet_int)%N then None else Some octet_int.

(** [IPv4Address._ip_int_from_string]. *)
Definition ip4_int_from_string (ip_str : string) : option N :=
  if String.eqb ip_str "" then None
  else
    match Py.split "." ip_str with
    | [o1; o2; o3; o4] =>
        a ← parse_octet o1; b ← parse_octet o2;
        c ← parse_octet o3; d ← parse_octet o4;
        Some (((a * 256 + b) * 256 + c) * 256 + d)%N
    | _ => None
    end.

(** [IPv4Address(addr_str)]. *)
Definition parse_IPv4Address (addr_str : string) : option address :=
  if Py.contains "/" addr_str then None
  else IPv4Address <$> ip4_int_from_string addr_str.

(** [IPv4Address._string_from_ip_int]. *)
Definition string_from_ip4_int (ip_int : N) : string :=
  Py.join "."
    (Py.str_int <$>
       [ip_int / 16777216 mod 256; ip_int / 65536 mod 256;
        ip_int / 256 mod 256; ip_int mod 256])%N.

(** *** Prefix lengths and netmasks *)

(** [_prefix_from_prefix_string]; [int()] refuses more than 4300 digits. *)
Definition prefix_from_prefix_string (max_len : N) (prefixlen_str : string)
  : option N :=
  if negb (Py.all_chars Py.is_digit prefixlen_str)
     || String.eqb prefixlen_str "" then None
  else if (4300 <? String.length prefixlen_str)%nat then None
  else
    let p := Py.int_of_digits 10 0 prefixlen_str in
    if (p <=? max_len)%N then Some p else None.

Fixpoint trailing_zeroes_pos (p : positive) : N :=
  match p with
  | xO p' => N.succ (trailing_zeroes_pos p')
  | _ => 0
  end.

(** [_count_righthand_zero_bits]. *)
Definition count_righthand_zero_bits (number bits : N) : N :=
  match number with
  | N0 => bits
  | Npos p => N.min bits (trailing_zeroes_pos p)
  end.

(** [_prefix_from_ip_int]. *)
Definition prefix_from_ip_int (max_len ip_int : N) : option N :=
  let trailing_zeroes := count_righthand_zero_bits ip_int max_len in
  let prefixlen := (max_len - trailing_zeroes)%N in
  let leading_ones := N.shiftr ip_int trailing_zeroes in
  let all_ones := (N.shiftl 1 prefixlen - 1)%N in
  if (leading_ones =? all_ones)%N then Some prefixlen else None.

Definition ALL_ONES_4 : N := 4294967295.

(** [_prefix_from_ip_string]: a netmask or a hostmask in dotted form. *)
Definition prefix_from_ip_string (ip_str : string) : option N :=
  ip_int ← ip4_int_from_string ip_str;
  match prefix_from_ip_int 32 ip_int with
  | Some p => Some p
  | None => prefix_from_ip_int 32 (N.lxor ip_int ALL_ONES_4)
  end.

(** [IPv4Network._make_netmask] of a string. *)
Definition make_netmask4 (arg : string) : option N :=
  match prefix_from_prefix_string 32 arg with
  | Some p => Some p
  | None => prefix_from_ip_string arg
  end.

(** [_ip_int_from_prefix]: the netmask of a prefix length. *)
Definition ip_int_from_prefix (max_len prefixlen : N) : N :=
  N.lxor (N.ones max_len) (N.ones (max_len - prefixlen)).

(** [_split_optional_netmask] then [_split_addr_prefix]: the address and,
    when one is given, the text after the slash. *)
Definition split_addr_prefix (address_str : string)
  : option (string * option string) :=
  match Py.split "/" address_str with
  | [addr] => Some (addr, None)
  | [addr; mask] => Some (addr, Some mask)
  | _ => None
  end.

(** The last step of [IPv4Network.__init__] and [IPv6Network.__init__]
    with [strict=False]: host bits are cleared (and with them a scope). *)
Definition mask_network (a : address) (prefixlen : N) : network :=
  let packed := int_of a in
  let netmask := ip_int_from_prefix (max_prefixlen a) prefixlen in
  if (N.land packed netmask =? packed)%N then Network a prefixlen
  else
    Network
      match a with
      | IPv4Address _ => IPv4Address (N.land packed netmask)
      | IPv6Address _ _ => IPv6Address (N.land packed netmask) None
      end prefixlen.

(** [IPv4Network(address, strict=False)]. *)
Definition parse_IPv4Network (address_str : string) : option network :=
  '(addr, mask) ← split_addr_prefix address_str;
  a ← parse_IPv4Address addr;
  p ← match mask with
      | Some m => make_netmask4 m
      | None => Some 32%N
      end;
  Some (mask_network a p).

(** *** IPv6 *)

(** [IPv6Address._parse_hextet]. *)
Definition parse_hextet (hextet_str : string) : option N :=
  if negb (Py.all_chars Py.is_hex_digit hextet_str) then None
  else if (4 <? String.length hextet_str)%nat then None
  else if String.eqb hextet_str "" then None
  else Some (Py.int_of_digits 16 0 hextet_str).

(** The loop that looks for an empty part strictly inside [parts]:
    [Some None] when there is none, [Some (Some i)] for the only one,
    [None] when there are two. *)
Fixpoint find_skip (parts : list string) (i last : nat)
    (skip_index : option nat) : option (option nat) :=
  match parts with
  | [] => Some skip_index
  | p :: ps =>
      if (0 <? i)%nat && (i <? last)%nat && String.eqb p "" then
        match skip_index with
        | Some _ => None
        | None => find_skip ps (S i) last (Some i)
        end
      else find_skip ps (S i) last skip_index
  end.

(** The two loops that shift the hextets into the integer. *)
Fixpoint parse_hextets (parts : list string) (ip_int : N) : option N :=
  match parts with
  | [] => Some ip_int
  | p :: ps =>
      h ← parse_hextet p;
      parse_hextets ps (N.lor (N.shiftl ip_int 16) h)
  end.

(** [IPv6Address._ip_int_from_string]. *)
Definition ip6_int_from_string (ip_str : string) : option N :=
  if String.eqb ip_str "" then None
  else
    let parts := Py.split ":" ip_str in
    if (List.length parts <? 3)%nat then None
    else
      parts ←
        (let lastp := List.last parts "" in
         if Py.contains "." lastp then
           match parse_IPv4Address lastp with
           | Some (IPv4Address ipv4_int) =>
               Some (removelast parts ++
                     [Py.hex_int (N.land (N.shiftr ipv4_int 16) 65535);
                      Py.hex_int (N.land ipv4_int 65535)])
           | _ => None
           end
         else Some parts);
      if (9 <? List.length parts)%nat then None
      else
        skip ← find_skip parts 0 (List.length parts - 1) None;
        let first_empty := String.eqb (List.hd "" parts) "" in
        let last_empty := String.eqb (List.last parts "") "" in
        '(parts_hi, parts_lo, parts_skipped) ←
          match skip with
          | Some skip_index =>
              let parts_hi := skip_index in
              let parts_lo := (List.length parts - skip_index - 1)%nat in
              parts_hi ←
                (if first_empty then
                   if (parts_hi - 1 =? 0)%nat then Some (parts_hi - 1)%nat
                   else None
                 else Some parts_hi);
              parts_lo ←
                (if last_empty then
                   if (parts_lo - 1 =? 0)%nat then Some (parts_lo - 1)%nat
                   else None
                 else Some parts_lo);
              if (8 <? parts_hi + parts_lo + 1)%nat then None
              else Some (parts_hi, parts_lo, (8 - (parts_hi + parts_lo))%nat)
          | None =>
              if negb (List.length parts =? 8)%nat then None
              else if first_empty then None
              else if last_empty then None
              else Some (List.length parts, 0%nat, 0%nat)
          end;
        hi ← parse_hextets (firstn parts_hi parts) 0;
        parse_hextets (skipn (List.length parts - parts_lo) parts)
          (N.shiftl hi (16 * N.of_nat parts_skipped)).

(** [IPv6Address._split_scope_id]. *)
Definition split_scope_id (ip_str : string) : option (string * option string) :=
  match Py.partition "%" ip_str with
  | None => Some (ip_str, None)
  | Some (addr, scope_id) =>
      if String.eqb scope_id "" || Py.contains "%" scope_id then None
      else Some (addr, Some scope_id)
  end.

(** [IPv6Address(addr_str)]. *)
Definition parse_IPv6Address (addr_str : string) : option address :=
  if Py.contains "/" addr_str then None
  else
    '(addr, scope_id) ← split_scope_id addr_str;
    ip ← ip6_int_from_string addr;
    Some (IPv6Address ip scope_id).

(** The scan of [_compress_hextets] for the longest run of zero hextets:
    its start and its length. *)
Fixpoint best_doublecolon (hextets : list string) (index : nat)
    (best_start best_len : nat) (start : option nat) (run : nat)
  : nat * nat :=
  match hextets with
  | [] => (best_start, best_len)
  | h :: hs =>
      if String.eqb h "0" then
        let run := S run in
        let start := match start with Some i => i | None => index end in
        if (best_len <? run)%nat
        then best_doublecolon hs (S index) start run (Some start) run
        else best_doublecolon hs (S index) best_start best_len (Some start) run
      else best_doublecolon hs (S index) best_start best_len None 0
  end.

(** [IPv6Address._compress_hextets]. *)
Definition compress_hextets (hextets : list string) : list string :=
  let '(best_start, best_len) := best_doublecolon hextets 0 0 0 None 0 in
  if (1 <? best_len)%nat then
    let best_end := (best_start + best_len)%nat in
    let hextets :=
      if (best_end =? List.length hextets)%nat then hextets ++ [""] else hextets in
    let hextets := firstn best_start hextets ++ [""] ++ skipn best_end hextets in
    if (best_start =? 0)%nat then "" :: hextets else hextets
  else hextets.

(** [IPv6Address._string_from_ip_int]. *)
Definition string_from_ip6_int (ip_int : N) : string :=
  Py.join ":"
    (compress_hextets
       ((fun i => Py.hex_int (N.shiftr ip_int (16 * i) mod 65536)%N)
          <$> [7; 6; 5; 4; 3; 2; 1; 0]%N)).

(** [IPv6Network(address, strict=False)]. *)
Definition parse_IPv6Network (address_str : string) : option network :=
  '(addr, mask) ← split_addr_prefix address_str;
  a ← parse_IPv6Address addr;
  p ← match mask with
      | Some m => prefix_from_prefix_string 128 m
      | None => Some 128%N
      end;
  Some (mask_network a p).

(** *** The module's functions *)

(** [ipaddress.ip_address(address)] of a string. *)
Definition ip_address (address_str : string) : result address :=
  match parse_IPv4Address address_str with
  | Some a => Ok a
  | None =>
      match parse_IPv6Address address_str with
      | Some a => Ok a
      | None => Raise ValueError
      end
  end.

(** [ipaddress.ip_network(address, strict=False)] of a string. *)
Definition ip_network (address_str : string) : result network :=
  match parse_IPv4Network address_str with
  | Some n => Ok n
  | None =>
      match parse_IPv6Network address_str with
      | Some n => Ok n
      | None => Raise ValueError
      end
  end.

(** [str(address)]. *)
Definition str_address (a : address) : string :=
  match a with
  | IPv4Address ip => string_from_ip4_int ip
  | IPv6Address ip scope_id =>
      match scope_id with
      | Some sc => string_from_ip6_int ip ++ "%" ++ sc
      | None => string_from_ip6_int ip
      end
  end.

(** [str(network)]. *)
Definition str_network (n : network) : string :=
  str_address (network_address n) ++ "/" ++ Py.str_int (prefixlen n).

(** [a == b] and [a < b] on addresses: [<] across versions is a
    [TypeError]. *)
Definition address_lt (a b : address) : result bool :=
  match a, b with
  | IPv4Address x, IPv4Address y => Ok (x <? y)%N
  | IPv6Address x _, IPv6Address y _ => Ok (x <? y)%N
  | _, _ => Raise TypeError
  end.

End ipaddress.

(** ** The world the program runs in *)

(** The calls made on the [git.Repo] object. *)
Inductive git_call : Set :=
| Fetch
| Pull
| AddUpdate
| Commit (message : string)
| Push.

(** The places where GitPython may raise: [Repo(repo_path)],
    [repo.remotes.origin], a call, the two [repo.commit(ref)] of
    [check_for_remote_changes], and [repo.is_dirty]. *)
Inductive git_op : Set :=
| OpenRepo
| Origin
| Call (c : git_call)
| CommitLookup
| IsDirty.

(** What [http://ipwho.is/<address>?fields=...] answers, as the fields the
    program reads with [.get]. *)
Record whois_response : Set := WhoisResponse {
  country : option string;
  region : option string;
  isp : option string
}.

Inductive log_level : Set := INFO | WARNING | ERROR.

(** One constructor for each [logging] call of [main.py], with the values
    its message is formatted from. *)
Inductive log_message : Set :=
| ErrorInitializingRepo (e : exn)
| ErrorCheckingRemoteChanges (e : exn)
| ErrorPullingLatestChanges (e : exn)
| ErrorCommittingAndPushing (e : exn)
| PulledLatest
| CommittedAndPushed
| NoChangesToCommit
| LoadedLines (n : nat) (input_file_path : string)
| FileNotFound (input_file_path : string)
| LoadedEntries (n : nat) (output_file_path : string)
| NoExistingOutputFile (output_file_path : string)
| RemovedDuplicates (before after : nat)
| NotAValidIP (ip : string)
| ValidatedAddresses (valid invalid : nat)
| GroupedIntoSubnets (n : nat)
| SortedSubnets (n : nat)
| StartFetchingWhois
| ErrorProcessing (entry : string)
| WhoisProcessed
| EntriesExceedLimit (max_entries : Z)
| FileSizeExceedsLimit (max_file_size : Z)
| OutputWritten (file_path : string) (file_size : Z)
| ErrorWritingOutput (file_path : string)
| ChangesDetected
| DebugModeNotPushing
| ValidationErrorNotPushing
| Stats (total_additions total_deletions : nat)
| NoRemoteChanges.

Definition level_of (m : log_message) : log_level :=
  match m with
  | NotAValidIP _ | DebugModeNotPushing => WARNING
  | ErrorInitializingRepo _ | ErrorCheckingRemoteChanges _
  | ErrorPullingLatestChanges _ | ErrorCommittingAndPushing _
  | FileNotFound _ | ErrorProcessing _ | EntriesExceedLimit _
  | FileSizeExceedsLimit _ | ErrorWritingOutput _
  | ValidationErrorNotPushing => ERROR
  | _ => INFO
  end.

(** - [files]: the text files by path, as the decoded text;
    - [unwritable]: the paths on which [open(path, "w")] raises [IOError];
    - [registry]: the registry service, by the address asked for; [None]
      when the request or the decoding of its answer raises;
    - [remote_changed]: whether the fetched remote head differs from the
      local one; [dirty]: the answer of [repo.is_dirty];
    - [git_raises]: the places where GitPython raises in this world;
    - [git_calls]: the calls made on the repository, oldest first, also
      those that raised; [log]: what was logged, oldest first.
    The working tree in [files] is the one after [pull]. *)
Record world : Type := World {
  files : gmap string string;
  unwritable : gset string;
  registry : string -> option whois_response;
  remote_changed : bool;
  dirty : bool;
  git_raises : git_op -> bool;
  git_calls : list git_call;
  log : list log_message
}.

Definition M (A : Type) : Type := world -> result A * world.

#[global] Instance M_ret : MRet M := fun A a w => (Ok a, w).
#[global] Instance M_bind : MBind M := fun A B k m w =>
  match m w with
  | (Ok a, w') => k a w'
  | (Raise e, w') => (Raise e, w')
  end.

#[global] Instance result_ret : MRet result := fun A a => Ok a.
#[global] Instance result_bind : MBind result := fun A B k r => rbind r k.

Definition raise {A} (e : exn) : M A := fun w => (Raise e, w).

(** A pure computation that may raise, run inside [M]. *)
Definition lift {A} (r : result A) : M A := fun w => (r, w).

(** [try: body] with [except Exception as e: handler]. *)
Definition try_except {A} (body : M A) (handler : exn -> M A) : M A := fun w =>
  match body w with
  | (Ok a, w') => (Ok a, w')
  | (Raise e, w') => if is_Exception e then handler e w' else (Raise e, w')
  end.

Definition logging (m : log_message) : M unit := fun w =>
  (Ok tt,
   World (files w) (unwritable w) (registry w) (remote_changed w) (dirty w)
     (git_raises w) (git_calls w) (log w ++ [m])).

(** A call on the repository: it is made, and raises where the world
    says so. *)
Definition git (c : git_call) : M unit := fun w =>
  (if git_raises w (Call c) then Raise GitError else Ok tt,
   World (files w) (unwritable w) (registry w) (remote_changed w) (dirty w)
     (git_raises w) (git_calls w ++ [c]) (log w)).

(** A question to the repository: the answer, or what GitPython raises. *)
Definition git_query {A} (op : git_op) (answer : world -> A) : M A := fun w =>
  (if git_raises w op then Raise GitError else Ok (answer w), w).

(** [repo.remotes.origin.fetch()] and the like: the remote is looked up,
    then the call is made. *)
Definition git_origin (c : git_call) : M unit :=
  git_query Origin (fun _ => tt);;
  git c.

Definition set_files (fs : gmap string string) (w : world) : world :=
  World fs (unwritable w) (registry w) (remote_changed w) (dirty w)
    (git_raises w) (git_calls w) (log w).

(** [os.path.exists] and the whole text of a file. *)
Definition read_file (path : string) : M (option string) := fun w =>
  (Ok (files w !! path), w).

(** [open(path, "w")]: the file is created or emptied; [false] stands for
    the [IOError]. *)
Definition open_w (path : string) : M bool := fun w =>
  if decide (path ∈ unwritable w) then (Ok false, w)
  else (Ok true, set_files (<[path := ""]> (files w)) w).

(** [file.write(text)] on a file opened by [open_w]. *)
Definition file_write (path text : string) : M unit := fun w =>
  (Ok tt, set_files (<[path := (default "" (files w !! path) ++ text)%string]>
                     (files w)) w).

(** [os.path.getsize(path)] of a file that exists. *)
Definition getsize (path : string) : M Z := fun w =>
  (Ok (Py.utf8_size (default "" (files w !! path))), w).

(** [requests.get(url)] and [response.json()]. *)
Definition whois_request (address_str : string) : M (option whois_response) :=
  fun w => (Ok (registry w address_str), w).

(** A [for] loop with the variables it updates as the accumulator. *)
Fixpoint for_each {A S} (l : list A) (body : S -> A -> M S) (s : S) : M S :=
  match l with
  | [] => mret s
  | x :: l' => s' ← body s x; for_each l' body s'
  end.

Fixpoint for_each_pure {A S} (l : list A) (body : S -> A -> result S) (s : S)
  : result S :=
  match l with
  | [] => Ok s
  | x :: l' => s' ← body s x; for_each_pure l' body s'
  end.

(** ** Python dictionaries *)

Definition dict (V : Type) : Type := list (string * V).

Fixpoint dict_get {V} (k : string) (d : dict V) : option V :=
  match d with
  | [] => None
  | (k', v) :: d' => if String.eqb k k' then Some v else dict_get k d'
  end.

(** [d[k] = v]: a known key keeps its place. *)
Fixpoint dict_set {V} (k : string) (v : V) (d : dict V) : dict V :=
  match d with
  | [] => [(k, v)]
  | (k', v') :: d' =>
      if String.eqb k k' then (k, v) :: d' else (k', v') :: dict_set k v d'
  end.

(** [del d[k]]. *)
Fixpoint dict_del {V} (k : string) (d : dict V) : dict V :=
  match d with
  | [] => []
  | (k', v') :: d' =>
      if String.eqb k k' then d' else (k', v') :: dict_del k d'
  end.

Definition dict_keys {V} (d : dict V) : list string := d.*1.

(** [dict(pairs)]. *)
Definition dict_of_items {V} (items : list (string * V)) : dict V :=
  fold_left (fun d kv => dict_set kv.1 kv.2 d) items [].

(** [{**d1, **d2}]. *)
Definition dict_merge {V} (d1 d2 : dict V) : dict V :=
  fold_left (fun d kv => dict_set kv.1 kv.2 d) d2 d1.

(** [d[k].append(x)] on a [defaultdict(list)]. *)
Definition dict_append {V} (k : string) (x : V) (d : dict (list V))
  : dict (list V) :=
  dict_set k (default [] (dict_get k d) ++ [x]) d.

(** ** [sorted]

    A stable insertion sort with the comparison [lt] Python's [<] stands
    for.  On keys that [lt] orders totally every stable sort returns this
    list; a comparison that raises makes the sort raise. *)

Section sorted.
Context {A : Type} (lt : A -> A -> result bool).

Fixpoint insert_sorted (x : A) (l : list A) : result (list A) :=
  match l with
  | [] => Ok [x]
  | y :: l' =>
      b ← lt y x;
      if b : bool then l'' ← insert_sorted x l'; Ok (y :: l'')
      else Ok (x :: l)
  end.

Fixpoint sorted (l : list A) : result (list A) :=
  match l with
  | [] => Ok []
  | x :: l' => s ← sorted l'; insert_sorted x s
  end.
End sorted.

(** [sorted(items, key=key)]: the keys are computed first. *)
Definition sorted_by_key {A K} (key : A -> result K)
    (lt : K -> K -> result bool) (items : list A) : result (list A) :=
  keyed ← for_each_pure items
             (fun acc x => k ← key x; Ok (acc ++ [(k, x)])) [];
  s ← sorted (fun a b => lt a.1 b.1) keyed;
  Ok (s.*2).

(** [a < b] on [str]. *)
Definition str_lt (a b : string) : result bool := Ok (String.ltb a b).

(** ** Configuration: the options of [cfg/config.json] the program reads *)

Record config : Set := Config {
  debug : bool;
  repo_path : string;
  input_files_to_process : list string;
  threshold_group_ips_into_subnets : Z;
  fg_max_entries : Z;
  fg_max_comment_length : Z;
  fg_max_size_bytes : Z
}.

(** ** The functions of [main.py] *)

Import ipaddress.

(** [initialize_repo]: the repository object is the world; when
    [Repo(repo_path)] raises, the program ends with [exit(1)]. *)
Definition initialize_repo (repo_path : string) : M unit :=
  try_except
    (git_query OpenRepo (fun _ => tt))
    (fun e => logging (ErrorInitializingRepo e);; raise (SystemExit 1)).

(** [check_for_remote_changes]: the fetch, the two commits looked up and
    compared. *)
Definition check_for_remote_changes : M bool :=
  try_except
    (git_origin Fetch;;
     git_query CommitLookup remote_changed)
    (fun e => logging (ErrorCheckingRemoteChanges e);; mret false).

(** [pull_latest_changes]. *)
Definition pull_latest_changes : M unit :=
  try_except
    (git_origin Pull;;
     logging PulledLatest)
    (fun e => logging (ErrorPullingLatestChanges e)).

(** [commit_and_push_changes]. *)
Definition commit_and_push_changes : M unit :=
  try_except
    (git AddUpdate;;
     is_dirty ← git_query IsDirty dirty;
     if is_dirty : bool then
       git (Commit "Update validated blocklists");;
       git_origin Push;;
       logging CommittedAndPushed
     else logging NoChangesToCommit)
    (fun e => logging (ErrorCommittingAndPushing e)).

(** [load_input_file_entries]: a missing file ends the program with
    [exit(1)]. *)
Definition load_input_file_entries (input_file_path : string)
  : M (list string) :=
  file ← read_file input_file_path;
  match file with
  | Some content =>
      let lines := Py.strip <$> Py.file_lines content in
      logging (LoadedLines (length lines) input_file_path);;
      mret lines
  | None =>
      logging (FileNotFound input_file_path);;
      raise (SystemExit 1)
  end.

(** The body of the loop of [load_existing_output_file_entries]. *)
Definition load_line (entries : dict string) (line : string) : dict string :=
  if negb (String.eqb (Py.strip line) "") && negb (Py.startswith "#" line)
  then
    let parts := Py.split1 " " line in
    let entry := Py.strip (hd "" parts) in
    let comment :=
      match parts with
      | [_; p1] => Py.strip (Py.strip_chars "# " p1)
      | _ => ""
      end in
    dict_set entry comment entries
  else entries.

(** [load_existing_output_file_entries]. *)
Definition load_existing_output_file_entries (output_file_path : string)
  : M (dict string) :=
  file ← read_file output_file_path;
  match file with
  | Some content =>
      let entries := fold_left load_line (Py.file_lines content) [] in
      logging (LoadedEntries (length entries) output_file_path);;
      mret entries
  | None =>
      logging (NoExistingOutputFile output_file_path);;
      mret []
  end.

(** [remove_duplicates]: [sorted(set(addresses))]. *)
Definition remove_duplicates (addresses : list string) : M (list string) :=
  unique_addresses ←
    lift (sorted str_lt (elements (list_to_set addresses : gset string)));
  logging (RemovedDuplicates (length addresses) (length unique_addresses));;
  mret unique_addresses.

(** [validate_ip_addresses]. *)
Definition validate_ip_addresses (addresses : list string) : M (list string) :=
  valid_ips ←
    for_each addresses
      (fun valid_ips ip =>
         match ip_address (hd "" (Py.split "/" ip)) with
         | Ok _ => mret (valid_ips ++ [ip])
         | Raise ValueError => logging (NotAValidIP ip);; mret valid_ips
         | Raise e => raise e
         end) [];
  logging (ValidatedAddresses (length valid_ips)
             (length addresses - length valid_ips));;
  mret valid_ips.

(** [str(network.network_address).rsplit(".", 1)[0]]. *)
Definition first_three_octets (network : network) : string :=
  Py.rsplit1_head "." (str_address (network_address network)).

(** The variables of [group_ips_into_subnets]. *)
Record grouping : Type := Grouping {
  ip_dict : dict (list network);
  existing_subnets : gset network;
  individual_ips : gset network
}.

(** Plain addresses are treated as /32 subnets. *)
Definition with_default_prefix (entry : string) : string :=
  if negb (Py.contains "/" entry) then (entry ++ "/32")%string else entry.

(** The body of the first loop of [group_ips_into_subnets]: where a
    parsed network goes. *)
Definition classify_network (g : grouping) (network : network) : grouping :=
  if (prefixlen network =? 32)%N then
    Grouping
      (dict_append (first_three_octets network) network (ip_dict g))
      (existing_subnets g)
      ({[network]} ∪ individual_ips g)
  else
    Grouping (ip_dict g) ({[network]} ∪ existing_subnets g)
      (individual_ips g).

Definition classify_entry (g : grouping) (entry : string) : result grouping :=
  let entry := with_default_prefix entry in
  network ← ip_network entry;
  Ok (classify_network g network).

(** The body of the second loop: an explicit subnet removes the group of
    its first three octets. *)
Definition drop_covered (ip_dict : dict (list network)) (subnet : network)
  : dict (list network) :=
  let first_three_octets := first_three_octets subnet in
  if bool_decide (is_Some (dict_get first_three_octets ip_dict))
  then dict_del first_three_octets ip_dict
  else ip_dict.

(** The body of the third loop, on [result] and [individual_ips]. *)
Definition aggregate_group (threshold : Z)
    (acc : gset string * gset network) (item : string * list network)
  : gset string * gset network :=
  let '(octets, ips) := item in
  if (threshold <=? Z.of_nat (length ips))%Z then
    ({[(octets ++ ".0/24")%string]} ∪ acc.1, acc.2 ∖ list_to_set ips)
  else acc.

(** The set [result] of [group_ips_into_subnets], from the variables the
    first loop leaves: the second and third loops and the two updates. *)
Definition grouped_result (g : grouping) (threshold : Z) : gset string :=
  let ip_dict :=
    fold_left drop_covered (elements (existing_subnets g)) (ip_dict g) in
  let '(result, individual_ips) :=
    fold_left (aggregate_group threshold) ip_dict (∅, individual_ips g) in
  let result := result ∪ set_map str_network (existing_subnets g) in
  result ∪ set_map str_network individual_ips.

(** [group_ips_into_subnets]. *)
Definition group_ips_into_subnets (addresses : list string) (threshold : Z)
  : M (list string) :=
  g ← lift (for_each_pure addresses classify_entry (Grouping [] ∅ ∅));
  let result := grouped_result g threshold in
  logging (GroupedIntoSubnets (size result));;
  mret (elements result).

(** [sort_key] of [sort_entries_by_cidr]. *)
Definition sort_key (entry : string) : result (N * address) :=
  network ← ip_network entry;
  Ok (prefixlen network, network_address network).

(** [a < b] on the tuples [sort_key] returns: the first components that
    differ decide. *)
Definition sort_key_lt (a b : N * address) : result bool :=
  if (a.1 =? b.1)%N then
    if decide (a.2 = b.2) then Ok false else address_lt a.2 b.2
  else Ok (a.1 <? b.1)%N.

(** [sort_entries_by_cidr]. *)
Definition sort_entries_by_cidr (entries : dict string) : M (dict string) :=
  items ← lift (sorted_by_key (fun item => sort_key item.1) sort_key_lt entries);
  let sorted_entries := dict_of_items items in
  logging (SortedSubnets (length sorted_entries));;
  mret sorted_entries.

(** [str(x)] of a value [.get] returned. *)
Definition str_opt (x : option string) : string := default "None" x.

(** [fetch_whois_info]. *)
Definition fetch_whois_info (entries : list string)
    (existing_entries : dict string) : M (dict string) :=
  logging StartFetchingWhois;;
  whois_info ←
    for_each entries
      (fun whois_info entry =>
         match dict_get entry existing_entries with
         | None =>
             response ← whois_request (hd "" (Py.split "/" entry));
             match response with
             | Some response_json =>
                 let comment :=
                   (str_opt (country response_json) ++ " | "
                    ++ str_opt (region response_json) ++ " | "
                    ++ str_opt (isp response_json))%string in
                 mret (dict_set entry comment whois_info)
             | None => logging (ErrorProcessing entry);; mret whois_info
             end
         | Some comment => mret (dict_set entry comment whois_info)
         end) [];
  logging WhoisProcessed;;
  mret whois_info.

(** The text [write_to_output_file] writes for one entry. *)
Definition render_entry (max_comment_length : Z) (entry comment : string)
  : string :=
  if String.eqb comment "" then (entry ++ String Py.LF "")%string
  else
    let comment :=
      if (max_comment_length - 2 <? Py.len comment)%Z
      then ("# " ++ Py.slice_to (max_comment_length - 5) comment ++ "..."
            ++ String Py.LF "")%string
      else ("# " ++ comment ++ String Py.LF "")%string in
    (entry ++ " " ++ comment)%string.

(** [write_to_output_file]. *)
Definition write_to_output_file (entries : dict string) (file_path : string)
    (config : config) : M bool :=
  let max_entries := fg_max_entries config in
  let max_comment_length := fg_max_comment_length config in
  let max_file_size := fg_max_size_bytes config in
  if (max_entries <? Z.of_nat (length entries))%Z then
    logging (EntriesExceedLimit max_entries);;
    mret false
  else
    opened ← open_w file_path;
    if opened : bool then
      for_each entries
        (fun _ item =>
           file_write file_path
             (render_entry max_comment_length item.1 item.2)) tt;;
      file_size ← getsize file_path;
      if (max_file_size <? file_size)%Z then
        logging (FileSizeExceedsLimit max_file_size);;
        mret false
      else
        logging (OutputWritten file_path file_size);;
        mret true
    else
      logging (ErrorWritingOutput file_path);;
      mret false.

(** [process_lists]. *)
Definition process_lists (input_file_path output_file_path : string)
    (config : config) : M (bool * nat * nat) :=
  raw_addresses ← load_input_file_entries input_file_path;
  unique_addresses ← remove_duplicates raw_addresses;
  valid_addresses ← validate_ip_addresses unique_addresses;
  grouped_addresses ←
    group_ips_into_subnets valid_addresses
      (threshold_group_ips_into_subnets config);
  existing_entries ← load_existing_output_file_entries output_file_path;
  looked_up_addresses ← fetch_whois_info grouped_addresses existing_entries;
  let current_entries : gset string := list_to_set grouped_addresses in
  let added_entries :=
    current_entries ∖ list_to_set (dict_keys existing_entries) in
  let removed_entries :=
    list_to_set (dict_keys existing_entries) ∖ current_entries in
  let existing_entries :=
    fold_left (fun d entry => dict_del entry d) (elements removed_entries)
      existing_entries in
  sorted_entries ←
    sort_entries_by_cidr (dict_merge existing_entries looked_up_addresses);
  success ← write_to_output_file sorted_entries output_file_path config;
  mret (success, size added_entries, size removed_entries).

(** [os.path.join(a, b)] on POSIX. *)
Definition path_join (a b : string) : string :=
  if Py.startswith "/" b then b
  else if String.eqb a "" || Py.endswith_char "/" a then (a ++ b)%string
  else (a ++ "/" ++ b)%string.

(** The body of the loop of [main]. *)
Definition process_file (config : config)
    (acc : option bool * nat * nat) (file_name : string)
  : M (option bool * nat * nat) :=
  let '(_, total_additions, total_deletions) := acc in
  let input_file_path := path_join (repo_path config) file_name in
  let output_file_path :=
    path_join (path_join (repo_path config) "output")
      ("blocklist-industrial"
       ++ (if Py.substring_in "manual" file_name then "-manual" else "")
       ++ ".txt")%string in
  '(processed, additions, deletions) ←
    process_lists input_file_path output_file_path config;
  mret (Some processed, (total_additions + additions)%nat,
        (total_deletions + deletions)%nat).

(** [main], from the configuration it loaded; [processed] is unbound when
    the loop ran over no file. *)
Definition main (config : config) : M unit :=
  initialize_repo (repo_path config);;
  changed ← check_for_remote_changes;
  if changed || debug config then
    logging ChangesDetected;;
    pull_latest_changes;;
    '(processed, total_additions, total_deletions) ←
      for_each (input_files_to_process config) (process_file config)
        (None, 0%nat, 0%nat);
    processed ←
      match processed with
      | Some p => mret p
      | None => raise UnboundLocalError
      end;
    (if processed && negb (debug config) then commit_and_push_changes
     else if processed && debug config then logging DebugModeNotPushing
     else logging ValidationErrorNotPushing);;
    logging (Stats total_additions total_deletions)
  else logging NoRemoteChanges.

(** ** Notions the statements use *)

Inductive ip_version : Set := V4 | V6.

Definition version (a : address) : ip_version :=
  match a with
  | IPv4Address _ => V4
  | IPv6Address _ _ => V6
  end.

(** The order of the sort key: prefix length, then the address as a
    number. *)
Definition key_le (a b : N * address) : Prop :=
  (a.1 < b.1)%N \/ (a.1 = b.1 /\ (int_of a.2 <= int_of b.2)%N).

Definition entry_le (e1 e2 : string) : Prop :=
  exists k1 k2, sort_key e1 = Ok k1 /\ sort_key e2 = Ok k2 /\ key_le k1 k2.

(** The keys [sort_entries_by_cidr] can order: each parses as a network,
    and two of one prefix length are of one IP version. *)
Definition sortable (keys : list string) : Prop :=
  Forall (fun e => exists n, ip_network e = Ok n) keys
  /\ forall e1 e2 n1 n2,
       e1 ∈ keys -> e2 ∈ keys ->
       ip_network e1 = Ok n1 -> ip_network e2 = Ok n2 ->
       prefixlen n1 = prefixlen n2 ->
       version (network_address n1) = version (network_address n2).

(** [entry] is read as the network [n] by [group_ips_into_subnets]. *)
Definition parses (entry : string) (n : network) : Prop :=
  ip_network (with_default_prefix entry) = Ok n.

(** The ip_dict invariant: keys are unique and every group holds networks
    of its key. *)
Definition ip_dict_inv (d : dict (list network)) : Prop :=
  NoDup (dict_keys d) /\
  forall k l, (k, l) ∈ d -> Forall (fun n => first_three_octets n = k) l.

(** The first three octets of the IPv4 addresses [256 * p] to
    [256 * p + 255], as text. *)
Definition octets3 (p : N) : string :=
  (Py.str_int (p / 65536 mod 256) ++ "." ++ Py.str_int (p / 256 mod 256)
   ++ "." ++ Py.str_int (p mod 256))%string.

(** Appending to the log. *)
Definition logged (m : log_message) (w : world) : world := (logging m w).2.

(** The whole text [write_to_output_file] writes. *)
Fixpoint render_entries (max_comment_length : Z) (entries : dict string)
  : string :=
  match entries with
  | [] => ""
  | item :: entries' =>
      (render_entry max_comment_length item.1 item.2
       ++ render_entries max_comment_length entries')%string
  end.

(** A world with no file, a registry that never answers, a repository
    on which nothing raises, and nothing logged. *)
Definition empty_world : world :=
  World ∅ ∅ (fun _ => None) false false (fun _ => false) [] [].

(** The world after [write_to_output_file] wrote the file. *)
Definition written (entries : dict string) (file_path : string)
    (config : config) (w : world) : world :=
  set_files
    (<[file_path := render_entries (fg_max_comment_length config) entries]>
       (files w)) w.

(** Keys and comments that the output format holds as they are: a key has
    no white space, is not empty and does not start with [#]; a comment has
    no line break and its first character after leading spaces is not
    [#]. *)
Definition plain_key (k : string) : bool :=
  negb (String.eqb k "")
  && Py.all_chars (fun a => negb (Py.isspace a)) k
  && negb (Py.startswith "#" k).

Definition plain_comment (c : string) : bool :=
  Py.all_chars (fun a => negb (Ascii.eqb a Py.LF) && negb (Ascii.eqb a Py.CR)) c
  && negb (Py.startswith "#" (Py.lstrip (fun a => Ascii.eqb a " ") c)).

(** A configuration and an output file for the examples. *)
Definition example_config : config :=
  Config false "/repo" ["list.txt"] 3 2 40 1000.

Definition example_output : string := "/repo/output/blocklist-industrial.txt".

Definition example_world : world :=
  set_files {[ example_output := "10.0.0.0/8" ++ String Py.LF "" ]}%string
    empty_world.

(** A run over two input files, [list.txt] and [manual.txt], with a cap
    of two entries; the remote has changed and the registry answers. *)
Definition two_files_config : config :=
  Config false "/repo" ["list.txt"; "manual.txt"] 3 2 40 1000.

Definition answering_registry (address_str : string) : option whois_response :=
  Some (WhoisResponse (Some "US") None (Some "Example ISP")).

Definition text_lines (lines : list string) : string :=
  Py.join "" ((fun l => l ++ String Py.LF "")%string <$> lines).

Definition run_world (list_txt manual_txt : list string)
    (registry : string -> option whois_response) : world :=
  World
    (<["/repo/list.txt" := text_lines list_txt]>
       (<["/repo/manual.txt" := text_lines manual_txt]> ∅))
    ∅ registry true true (fun _ => false) [] [].

(** ** Notions the further statements use *)

(** Several lines appended to the log. *)
Definition logged_all (ms : list log_message) (w : world) : world :=
  fold_left (fun w m => logged m w) ms w.

(** The test of [validate_ip_addresses]: the text before the first slash
    is an IPv4 or an IPv6 address. *)
Definition valid_ip (ip : string) : bool :=
  match ip_address (hd "" (Py.split "/" ip)) with
  | Ok _ => true
  | Raise _ => false
  end.

(** A parsed entry that [group_ips_into_subnets] treats as a single
    address. *)
Definition is_host (n : network) : bool := (prefixlen n =? 32)%N.

(** The hosts among [nets] whose group key is [K], in the order of the
    input and as often as they occur. *)
Definition group_of (K : string) (nets : list network) : list network :=
  List.filter (fun n => is_host n && String.eqb (first_three_octets n) K) nets.

(** [K] is the group key of an explicit subnet among [nets]. *)
Definition covered (K : string) (nets : list network) : Prop :=
  exists s, s ∈ nets /\ is_host s = false /\ first_three_octets s = K.

(** The group of [K] is replaced by its /24: no explicit subnet has the
    key, and the group has at least [threshold] members. *)
Definition aggregated (threshold : Z) (K : string) (nets : list network)
  : Prop :=
  ~ covered K nets /\ group_of K nets <> []
  /\ (threshold <= Z.of_nat (length (group_of K nets)))%Z.

(** The comment [fetch_whois_info] gives an entry: the one the entry has
    already, or else what the registry answers. *)
Definition whois_comment (registry : string -> option whois_response)
    (existing_entries : dict string) (entry : string) : option string :=
  match dict_get entry existing_entries with
  | Some comment => Some comment
  | None =>
      match registry (hd "" (Py.split "/" entry)) with
      | Some response_json =>
          Some (str_opt (country response_json) ++ " | "
                ++ str_opt (region response_json) ++ " | "
                ++ str_opt (isp response_json))%string
      | None => None
      end
  end.

(** What a step does to the world when it writes no file but those of
    [outs], calls nothing on the repository and logs: the other files,
    the repository and the registry stay as they are, and the log
    grows. *)
Definition frame (outs : gset string) (w w' : world) : Prop :=
  (forall p, p ∉ outs -> files w' !! p = files w !! p)
  /\ unwritable w' = unwritable w
  /\ registry w' = registry w
  /\ remote_changed w' = remote_changed w
  /\ dirty w' = dirty w
  /\ git_raises w' = git_raises w
  /\ git_calls w' = git_calls w
  /\ exists ms, log w' = log w ++ ms.

Definition keeps {A} (outs : gset string) (m : M A) : Prop :=
  forall w, frame outs w (m w).2.

(** The two output files of [main]. *)
Definition output_paths (config : config) : gset string :=
  {[ path_join (path_join (repo_path config) "output")
       "blocklist-industrial.txt";
     path_join (path_join (repo_path config) "output")
       "blocklist-industrial-manual.txt" ]}.

(** What a step on the repository does to the world: it makes the calls
    [calls], in this order, and logs; the files, the registry and the
    answers of the repository stay as they are. *)
Definition calls_only (calls : list git_call) (w w' : world) : Prop :=
  files w' = files w
  /\ unwritable w' = unwritable w
  /\ registry w' = registry w
  /\ remote_changed w' = remote_changed w
  /\ dirty w' = dirty w
  /\ git_raises w' = git_raises w
  /\ git_calls w' = git_calls w ++ calls
  /\ exists ms, log w' = log w ++ ms.

(** The calls of a whole run, when nothing stops it. *)
Definition all_calls : list git_call :=
  [Fetch; Pull; AddUpdate; Commit "Update validated blocklists"; Push].


(** Debug mode, no input file. *)
Definition no_files_config : config := Config true "/repo" [] 3 2 40 1000.

(** A world like [empty_world] in which the pull raises. *)
Definition pull_raises_world : world :=
  World ∅ ∅ (fun _ => None) false false
    (fun op => match op with Call Pull => true | _ => false end) [] [].

(** * Proofs *)

(** ** Strings *)

Lemma append_assoc (a b c : string) : ((a ++ b) ++ c = a ++ (b ++ c))%string.
Proof. induction a as [|x a IH]; simpl; [done | by rewrite IH]. Qed.

Lemma append_nil_r (a : string) : (a ++ "" = a)%string.
Proof. induction a as [|x a IH]; simpl; [done | by rewrite IH]. Qed.

Lemma contains_append c (a b : string) :
  Py.contains c (a ++ b) = Py.contains c a || Py.contains c b.
Proof.
  induction a as [|x a IH]; simpl; [done|]. rewrite IH. by rewrite orb_assoc.
Qed.

Lemma rpartition_None sep t :
  Py.contains sep t = false -> Py.rpartition sep t = None.
Proof.
  induction t as [|x t IH]; simpl; [done|].
  intros [Hx Ht]%orb_false_elim. by rewrite IH, Hx.
Qed.

Lemma rpartition_last sep (s t : string) :
  Py.contains sep t = false ->
  Py.rpartition sep (s ++ String sep t) = Some (s, t).
Proof.
  intros Ht. induction s as [|x s IH]; simpl.
  - by rewrite rpartition_None, Ascii.eqb_refl.
  - by rewrite IH.
Qed.

Lemma digit_char_below d c :
  (d < 10)%N -> (N_of_ascii c < 48)%N -> Ascii.eqb (Py.digit_char d) c = false.
Proof.
  intros Hd Hc. apply Ascii.eqb_neq. intros <-. unfold Py.digit_char in Hc.
  apply N.ltb_lt in Hd as Hd'. rewrite Hd' in Hc.
  rewrite N_ascii_embedding in Hc; lia.
Qed.

Lemma digits_contains c fuel n acc :
  (N_of_ascii c < 48)%N ->
  Py.contains c (Py.digits fuel 10 n acc) = Py.contains c acc.
Proof.
  intros Hc. revert n acc. induction fuel as [|fuel IH]; intros n acc; simpl; [done|].
  assert (Ascii.eqb (Py.digit_char (n mod 10)) c = false) as Hd.
  { apply digit_char_below; [|done]. apply N.mod_lt. done. }
  destruct (n / 10 =? 0)%N; [|rewrite IH]; simpl; by rewrite Hd.
Qed.

Lemma str_int_contains c n :
  (N_of_ascii c < 48)%N -> Py.contains c (Py.str_int n) = false.
Proof. intros Hc. unfold Py.str_int. by rewrite digits_contains. Qed.

(** ** IPv4 addresses as text *)

Lemma string_from_ip4_int_octets3 ip :
  string_from_ip4_int ip
  = (octets3 (ip / 256) ++ String "." (Py.str_int (ip mod 256)))%string.
Proof.
  unfold string_from_ip4_int, octets3, Py.join. cbn [fmap list_fmap String.concat].
  rewrite !N.Div0.div_div. change (256 * 65536)%N with 16777216%N.
  change (256 * 256)%N with 65536%N.
  rewrite !append_assoc. reflexivity.
Qed.

Lemma first_three_octets_IPv4 ip len :
  first_three_octets (Network (IPv4Address ip) len) = octets3 (ip / 256).
Proof.
  unfold first_three_octets, Py.rsplit1_head. cbn [network_address str_address].
  rewrite string_from_ip4_int_octets3, rpartition_last; [done|].
  by apply str_int_contains.
Qed.

Lemma str_network_24 p :
  str_network (Network (IPv4Address (p * 256)) 24) = (octets3 p ++ ".0/24")%string.
Proof.
  unfold str_network. cbn [network_address prefixlen str_address].
  rewrite string_from_ip4_int_octets3, N.div_mul, N.Div0.mod_mul by done.
  rewrite append_assoc. reflexivity.
Qed.

(** A host entry and a /24 entry differ as text. *)
Lemma str_network_32_24 a b :
  str_network (Network a 32) <> str_network (Network b 24).
Proof.
  unfold str_network. cbn [network_address prefixlen]. intros Heq.
  apply (f_equal (Py.rpartition "/")) in Heq.
  change ("/" ++ Py.str_int 32)%string with (String "/" "32") in Heq.
  change ("/" ++ Py.str_int 24)%string with (String "/" "24") in Heq.
  rewrite !rpartition_last in Heq by done. congruence.
Qed.

(** ** Dictionaries *)

Section dict_facts.
Context {V : Type}.
Implicit Types (d : dict V) (k : string) (v : V).

Lemma dict_get_None k d : dict_get k d = None <-> k ∉ dict_keys d.
Proof.
  unfold dict_keys. induction d as [|[k' v'] d IH]; simpl.
  - split; [intros _; apply not_elem_of_nil | done].
  - rewrite not_elem_of_cons. destruct (String.eqb_spec k k') as [->|Hne].
    + split; [done | intros [? _]; done].
    + rewrite IH. naive_solver.
Qed.

Lemma dict_get_Some_In k v d : dict_get k d = Some v -> (k, v) ∈ d.
Proof.
  induction d as [|[k' v'] d IH]; simpl; [done|].
  destruct (String.eqb_spec k k') as [->|Hne].
  - intros [= ->]. left.
  - intros H. right. auto.
Qed.

Lemma dict_In_get k v d :
  NoDup (dict_keys d) -> (k, v) ∈ d -> dict_get k d = Some v.
Proof.
  unfold dict_keys. induction d as [|[k' v'] d IH]; simpl.
  - intros _ H. by apply elem_of_nil in H.
  - rewrite NoDup_cons. intros [Hk Hd] [[= -> ->]|Hin]%elem_of_cons.
    + by rewrite String.eqb_refl.
    + destruct (String.eqb_spec k k') as [->|Hne]; [|auto].
      exfalso. apply Hk. by apply (list_elem_of_fmap_2 fst) in Hin.
Qed.

Lemma dict_set_In k v k' v' d :
  (k', v') ∈ dict_set k v d -> (k' = k /\ v' = v) \/ (k', v') ∈ d.
Proof.
  induction d as [|[k0 v0] d IH]; simpl.
  - intros [[= -> ->]|H]%elem_of_cons; [by left | by apply elem_of_nil in H].
  - destruct (String.eqb_spec k k0) as [->|Hne].
    + intros [[= -> ->]|H]%elem_of_cons; [by left|]. right. by right.
    + intros [[= -> ->]|H]%elem_of_cons; [right; left|].
      destruct (IH H) as [?|?]; [by left|right; by right].
Qed.

Lemma dict_keys_set k v d :
  dict_keys (dict_set k v d) =
  if decide (k ∈ dict_keys d) then dict_keys d else dict_keys d ++ [k].
Proof.
  unfold dict_keys. induction d as [|[k0 v0] d IH].
  - reflexivity.
  - cbn [dict_set]. destruct (String.eqb_spec k k0) as [->|Hne].
    + rewrite decide_True by set_solver. done.
    + rewrite !fmap_cons, IH. cbn [fst].
      destruct (decide (k ∈ d.*1)).
      * rewrite decide_True by set_solver. done.
      * rewrite decide_False by set_solver. done.
Qed.

Lemma dict_set_NoDup k v d :
  NoDup (dict_keys d) -> NoDup (dict_keys (dict_set k v d)).
Proof.
  intros Hd. rewrite dict_keys_set. case_decide; [done|].
  apply NoDup_app. split_and!; [done | | apply NoDup_singleton].
  intros x Hx ->%list_elem_of_singleton. done.
Qed.

(** On a dictionary, [dict_set] of a new key appends. *)
Lemma dict_set_fresh k v d : k ∉ dict_keys d -> dict_set k v d = d ++ [(k, v)].
Proof.
  unfold dict_keys. induction d as [|[k0 v0] d IH]; simpl; [done|].
  rewrite not_elem_of_cons. intros [Hne Hnin].
  destruct (String.eqb_spec k k0) as [->|_]; [done|]. by rewrite IH.
Qed.

Lemma dict_del_sublist k d : dict_del k d `sublist_of` d.
Proof.
  induction d as [|[k0 v0] d IH]; simpl; [constructor|].
  destruct (String.eqb k k0); [by apply sublist_cons | by apply sublist_skip].
Qed.

Lemma dict_del_keys k d :
  NoDup (dict_keys d) -> k ∉ dict_keys (dict_del k d).
Proof.
  unfold dict_keys. induction d as [|[k0 v0] d IH]; simpl.
  - intros _. apply not_elem_of_nil.
  - rewrite NoDup_cons. intros [Hk Hd].
    destruct (String.eqb_spec k k0) as [->|Hne]; [done|].
    simpl. rewrite not_elem_of_cons. auto.
Qed.

Lemma dict_of_items_NoDup (items : list (string * V)) :
  NoDup (dict_keys items) -> dict_of_items items = items.
Proof.
  unfold dict_of_items.
  enough (forall d, NoDup (dict_keys (d ++ items)) ->
            fold_left (fun d kv => dict_set kv.1 kv.2 d) items d = d ++ items)
    as H by (intros Hn; apply (H []); exact Hn).
  induction items as [|[k v] items IH]; intros d Hn; simpl.
  - by rewrite app_nil_r.
  - rewrite dict_set_fresh.
    + rewrite IH; rewrite <- app_assoc; done.
    + unfold dict_keys in *. rewrite fmap_app in Hn.
      apply NoDup_app in Hn as (_ & Hn & _). intros Hin. apply (Hn _ Hin). left.
Qed.
End dict_facts.

(** ** [group_ips_into_subnets] *)

Lemma classify_all addresses nets g :
  Forall2 parses addresses nets ->
  for_each_pure addresses classify_entry g = Ok (fold_left classify_network nets g).
Proof.
  intros H. revert g. induction H as [|e n es ns He _ IH]; intros g; simpl; [done|].
  unfold mbind, result_bind, classify_entry, rbind. cbv zeta.
  unfold parses in He. rewrite He. apply IH.
Qed.

Lemma parses_all addresses :
  Forall (fun e => exists n, parses e n) addresses ->
  exists nets, Forall2 parses addresses nets.
Proof.
  induction 1 as [|e es [n Hn] _ [ns IH]]; [by exists [] |].
  exists (n :: ns). by constructor.
Qed.

Lemma group_run addresses threshold w g :
  for_each_pure addresses classify_entry (Grouping [] ∅ ∅) = Ok g ->
  group_ips_into_subnets addresses threshold w =
  (Ok (elements (grouped_result g threshold)),
   logged (GroupedIntoSubnets (size (grouped_result g threshold))) w).
Proof.
  intros Hg. unfold group_ips_into_subnets, mbind, M_bind, lift. rewrite Hg. done.
Qed.

Lemma group_raise addresses threshold w e :
  for_each_pure addresses classify_entry (Grouping [] ∅ ∅) = Raise e ->
  group_ips_into_subnets addresses threshold w = (Raise e, w).
Proof.
  intros Hg. unfold group_ips_into_subnets, mbind, M_bind, lift. rewrite Hg. done.
Qed.

(** One entry that [ip_network] refuses makes the whole call raise. *)
Lemma group_raises_on_unparsable addresses threshold w e :
  e ∈ addresses -> ip_network (with_default_prefix e) = Raise ValueError ->
  group_ips_into_subnets addresses threshold w = (Raise ValueError, w).
Proof.
  intros Hin He. apply group_raise. generalize (Grouping [] ∅ ∅).
  induction addresses as [|a addresses IH]; intros g.
  - by apply elem_of_nil in Hin.
  - cbn [for_each_pure]. unfold mbind, result_bind, rbind.
    unfold classify_entry at 1. cbv zeta. unfold mbind, result_bind, rbind.
    destruct (ip_network (with_default_prefix a)) as [n|x] eqn:Ha.
    + apply elem_of_cons in Hin as [->|Hin]; [congruence|]. by apply IH.
    + unfold ip_network in Ha.
      destruct (parse_IPv4Network _); [done|].
      destruct (parse_IPv6Network _); [done|]. by injection Ha as <-.
Qed.

Lemma classify_network_inv g n :
  ip_dict_inv (ip_dict g) -> ip_dict_inv (ip_dict (classify_network g n)).
Proof.
  intros [Hnd Hkeys]. unfold classify_network.
  destruct (prefixlen n =? 32)%N; [|done]. simpl. unfold dict_append. split.
  - by apply dict_set_NoDup.
  - intros k l [[-> ->]|Hin]%dict_set_In; [|by eauto].
    apply Forall_app. split; [|by repeat constructor].
    destruct (dict_get _ _) as [l0|] eqn:Hget; simpl; [|constructor].
    apply dict_get_Some_In in Hget. eauto.
Qed.

Lemma classify_fold_inv nets g :
  ip_dict_inv (ip_dict g) -> ip_dict_inv (ip_dict (fold_left classify_network nets g)).
Proof.
  revert g. induction nets as [|n nets IH]; intros g Hg; simpl; [done|].
  apply IH. by apply classify_network_inv.
Qed.

Lemma classify_fold_existing nets g n :
  n ∈ existing_subnets (fold_left classify_network nets g) <->
  n ∈ existing_subnets g \/ (n ∈ nets /\ prefixlen n <> 32%N).
Proof.
  revert g. induction nets as [|m nets IH]; intros g; simpl.
  - set_solver.
  - rewrite IH. unfold classify_network.
    destruct (N.eqb_spec (prefixlen m) 32); simpl; set_solver.
Qed.

Lemma classify_fold_individual nets g n :
  n ∈ individual_ips (fold_left classify_network nets g) <->
  n ∈ individual_ips g \/ (n ∈ nets /\ prefixlen n = 32%N).
Proof.
  revert g. induction nets as [|m nets IH]; intros g; simpl.
  - set_solver.
  - rewrite IH. unfold classify_network.
    destruct (N.eqb_spec (prefixlen m) 32); simpl; set_solver.
Qed.

(** The second loop only deletes, and deletes the key of every explicit
    subnet. *)
Lemma drop_covered_sublist subnets d :
  fold_left drop_covered subnets d `sublist_of` d.
Proof.
  revert d. induction subnets as [|s subnets IH]; intros d; simpl; [done|].
  etrans; [apply IH|]. unfold drop_covered. case_bool_decide; [|done].
  apply dict_del_sublist.
Qed.

Lemma drop_covered_keys subnets d s :
  NoDup (dict_keys d) -> s ∈ subnets ->
  first_three_octets s ∉ dict_keys (fold_left drop_covered subnets d).
Proof.
  revert d. induction subnets as [|s' subnets IH]; intros d Hd Hs; simpl.
  - by apply elem_of_nil in Hs.
  - assert (NoDup (dict_keys (drop_covered d s'))) as Hd'.
    { unfold drop_covered. case_bool_decide; [|done]. unfold dict_keys.
      eapply sublist_NoDup; [exact Hd | apply fmap_sublist, dict_del_sublist]. }
    apply elem_of_cons in Hs as [->|Hs]; [|by apply IH].
    intros Hin.
    assert (first_three_octets s' ∈ dict_keys (drop_covered d s')) as Hin'.
    { unfold dict_keys in *. eapply elem_of_sublist; [exact Hin|].
      apply fmap_sublist, drop_covered_sublist. }
    revert Hin'. unfold drop_covered. case_bool_decide as Hsome.
    + by apply dict_del_keys.
    + apply dict_get_None. destruct (dict_get _ d); [|done].
      exfalso. apply Hsome. eauto.
Qed.

(** The third loop removes from [individual_ips] only members of the
    groups it walks over. *)
Lemma aggregate_keeps threshold d acc n :
  n ∈ acc.2 -> (forall k l, (k, l) ∈ d -> n ∉ l) ->
  n ∈ (fold_left (aggregate_group threshold) d acc).2.
Proof.
  revert acc. induction d as [|[k l] d IH]; intros acc Hn Hd; simpl; [done|].
  apply IH.
  - unfold aggregate_group. destruct (_ <=? _)%Z; [|done]. simpl.
    apply elem_of_difference. split; [done|].
    rewrite elem_of_list_to_set. apply (Hd k). left.
  - intros k' l' Hin. apply (Hd k'). by right.
Qed.

Lemma grouped_result_existing g threshold s :
  s ∈ existing_subnets g -> str_network s ∈ grouped_result g threshold.
Proof.
  intros Hs. unfold grouped_result. destruct (fold_left _ _ _) as [r i].
  apply elem_of_union_l, elem_of_union_r, elem_of_map. eauto.
Qed.

Lemma grouped_result_host g threshold s h :
  ip_dict_inv (ip_dict g) ->
  s ∈ existing_subnets g -> h ∈ individual_ips g ->
  first_three_octets h = first_three_octets s ->
  str_network h ∈ grouped_result g threshold.
Proof.
  intros [Hnd Hkeys] Hs Hh Hoct. unfold grouped_result.
  pose proof (aggregate_keeps threshold
    (fold_left drop_covered (elements (existing_subnets g)) (ip_dict g))
    (∅, individual_ips g) h Hh) as Hkeep.
  destruct (fold_left (aggregate_group _) _ _) as [r i]. simpl in Hkeep.
  apply elem_of_union_r, elem_of_map. exists h. split; [done|].
  apply Hkeep. intros k l Hin Hhl.
  assert ((k, l) ∈ ip_dict g) as Hin0.
  { eapply elem_of_sublist; [exact Hin | apply drop_covered_sublist]. }
  pose proof (Hkeys k l Hin0) as Hall. rewrite Forall_forall in Hall.
  apply Hall in Hhl.
  apply (drop_covered_keys (elements (existing_subnets g)) (ip_dict g) s Hnd).
  - by apply elem_of_elements.
  - rewrite <- Hoct, Hhl. by apply (list_elem_of_fmap_2 fst) in Hin.
Qed.

(** *** Hosts of one /24 *)

Lemma classify_one_group K nets :
  Forall (fun n => prefixlen n = 32%N /\ first_three_octets n = K) nets ->
  forall l0,
    fold_left classify_network nets
      (Grouping (match l0 with [] => [] | _ => [(K, l0)] end) ∅ (list_to_set l0))
    = Grouping (match l0 ++ nets with [] => [] | _ => [(K, l0 ++ nets)] end) ∅
        (list_to_set (l0 ++ nets)).
Proof.
  induction 1 as [|n nets [Hlen Hkey] _ IH]; intros l0.
  - by rewrite app_nil_r.
  - cbn [fold_left]. replace (l0 ++ n :: nets) with ((l0 ++ [n]) ++ nets)
      by (by rewrite <- app_assoc).
    rewrite <- IH. f_equal.
    unfold classify_network. rewrite Hlen, Hkey. cbn [N.eqb Pos.eqb].
    cbn [ip_dict existing_subnets individual_ips]. f_equal.
    + unfold dict_append. destruct l0 as [|x l0]; cbn; [done|].
      rewrite !String.eqb_refl. cbn. rewrite ?String.eqb_refl. done.
    + rewrite list_to_set_app_L. set_solver.
Qed.

Lemma grouped_result_one_group K nets threshold :
  nets <> [] -> (threshold <= Z.of_nat (length nets))%Z ->
  grouped_result (Grouping [(K, nets)] ∅ (list_to_set nets)) threshold
  = {[ (K ++ ".0/24")%string ]}.
Proof.
  intros Hne Hlen. unfold grouped_result.
  cbn [existing_subnets ip_dict individual_ips]. rewrite elements_empty.
  cbn [fold_left aggregate_group]. apply Z.leb_le in Hlen. rewrite Hlen.
  cbn [fst snd]. set_solver.
Qed.

Lemma Forall2_parses_elem addresses nets e n :
  Forall2 parses addresses nets -> e ∈ addresses -> parses e n -> n ∈ nets.
Proof.
  induction 1 as [|e' n' es ns He _ IH]; intros Hin Hp.
  - by apply elem_of_nil in Hin.
  - apply elem_of_cons in Hin as [->|Hin]; [|right; auto].
    unfold parses in *. rewrite He in Hp. injection Hp as ->. left.
Qed.

(** C3. Hosts that share a /24, at least [threshold] of them (the bound is
    inclusive) and at least one: [group_ips_into_subnets] returns exactly
    one entry, the /24 network that contains them, and none of the host
    entries. *)
Theorem dense_hosts_aggregate (addresses : list string) (threshold : Z)
    (p : N) (w : world) :
  addresses <> [] ->
  Forall (fun e => exists ip,
            parses e (Network (IPv4Address ip) 32) /\ (ip / 256 = p)%N)
    addresses ->
  (threshold <= Z.of_nat (length addresses))%Z ->
  group_ips_into_subnets addresses threshold w
  = (Ok [str_network (Network (IPv4Address (p * 256)) 24)],
     logged (GroupedIntoSubnets 1) w)
  /\ forall ip,
       str_network (Network (IPv4Address ip) 32)
       ∉ [str_network (Network (IPv4Address (p * 256)) 24)].
Proof.
  intros Hne Hall Hlen. split.
  - assert (exists nets, Forall2 parses addresses nets /\
              Forall (fun n => prefixlen n = 32%N
                               /\ first_three_octets n = octets3 p) nets)
      as (nets & Hparse & Hnets).
    { clear Hne Hlen. induction Hall as [|e es (ip & He & Hip) _ (ns & ? & ?)].
      - exists []. split; constructor.
      - exists (Network (IPv4Address ip) 32 :: ns). split; constructor; try done.
        split; [done|]. by rewrite first_three_octets_IPv4, Hip. }
    assert (length nets = length addresses) as Hlen'
      by (symmetry; eapply Forall2_length; exact Hparse).
    assert (nets <> []) as Hne' by (intros ->; by destruct addresses).
    pose proof (classify_one_group _ _ Hnets []) as Hfold.
    cbn [app] in Hfold. destruct nets as [|n nets]; [done|].
    rewrite list_to_set_nil in Hfold.
    rewrite (group_run _ _ _ _ (eq_trans (classify_all _ _ _ Hparse) (f_equal Ok Hfold))).
    rewrite grouped_result_one_group by (done || lia).
    rewrite elements_singleton, size_singleton, str_network_24. done.
  - intros ip Hin. apply list_elem_of_singleton in Hin.
    by apply str_network_32_24 in Hin.
Qed.

(** The example of the specification: three hosts of 1.2.3.0/24 with a
    threshold of three. *)
Lemma dense_hosts_aggregate_example :
  group_ips_into_subnets ["1.2.3.1"; "1.2.3.2"; "1.2.3.3"] 3 empty_world
  = (Ok ["1.2.3.0/24"], logged (GroupedIntoSubnets 1) empty_world)
  /\ forall ip, str_network (Network (IPv4Address ip) 32) ∉ ["1.2.3.0/24"].
Proof.
  apply (dense_hosts_aggregate ["1.2.3.1"; "1.2.3.2"; "1.2.3.3"] 3 66051
           empty_world).
  - discriminate.
  - repeat constructor.
    + exists 16909057%N. split; vm_compute; reflexivity.
    + exists 16909058%N. split; vm_compute; reflexivity.
    + exists 16909059%N. split; vm_compute; reflexivity.
  - vm_compute. discriminate.
Defined.

(** With a threshold of four the three hosts stay as they are. *)
Lemma sparse_hosts_example :
  exists out w',
    group_ips_into_subnets ["1.2.3.1"; "1.2.3.2"; "1.2.3.3"] 4 empty_world
    = (Ok out, w')
    /\ out ≡ₚ ["1.2.3.3/32"; "1.2.3.1/32"; "1.2.3.2/32"].
Proof. eexists _, _. split; [vm_compute; reflexivity | reflexivity]. Qed.

(** *** Explicit subnets *)

(** **** The three loops *)

Lemma dict_get_set {V} k k' (v : V) d :
  dict_get k' (dict_set k v d) = if String.eqb k' k then Some v else dict_get k' d.
Proof.
  induction d as [|[k0 v0] d IH]; cbn [dict_set dict_get]; [done|].
  destruct (String.eqb_spec k k0) as [->|Hne]; cbn [dict_get].
  - by destruct (String.eqb k' k0).
  - rewrite IH. destruct (String.eqb_spec k' k0) as [->|?]; [|done].
    destruct (String.eqb_spec k0 k) as [->|?]; done.
Qed.

Lemma dict_get_del {V} k k' (d : dict V) :
  NoDup (dict_keys d) ->
  dict_get k' (dict_del k d) = if String.eqb k' k then None else dict_get k' d.
Proof.
  unfold dict_keys. induction d as [|[k0 v0] d IH]; cbn [dict_del dict_get].
  - intros _. by destruct (String.eqb k' k).
  - rewrite fmap_cons, NoDup_cons. cbn [fst]. intros [Hk0 Hd].
    destruct (String.eqb_spec k k0) as [->|Hne]; cbn [dict_get].
    + destruct (String.eqb_spec k' k0) as [->|?]; [|done].
      by apply dict_get_None.
    + rewrite IH by done. destruct (String.eqb_spec k' k0) as [->|?]; [|done].
      destruct (String.eqb_spec k0 k) as [->|?]; done.
Qed.

(** The first loop: the group of a key grows by the hosts of that key. *)
Lemma classify_fold_get K nets g :
  default [] (dict_get K (ip_dict (fold_left classify_network nets g)))
  = default [] (dict_get K (ip_dict g)) ++ group_of K nets.
Proof.
  revert g. induction nets as [|n nets IH]; intros g.
  - cbn. by rewrite app_nil_r.
  - cbn [fold_left]. rewrite IH. unfold group_of. cbn [List.filter].
    unfold classify_network, is_host.
    destruct (prefixlen n =? 32)%N; cbn [ip_dict andb]; [|done].
    unfold dict_append. rewrite dict_get_set, (String.eqb_sym K).
    destruct (String.eqb_spec (first_three_octets n) K) as [->|?]; [|done].
    cbn [default]. unfold id. by rewrite <- app_assoc.
Qed.

Lemma classify_fold_nonempty nets g :
  (forall K, dict_get K (ip_dict g) <> Some []) ->
  forall K, dict_get K (ip_dict (fold_left classify_network nets g)) <> Some [].
Proof.
  revert g. induction nets as [|n nets IH]; intros g Hg; [done|].
  cbn [fold_left]. apply IH. intros K. unfold classify_network.
  destruct (prefixlen n =? 32)%N; cbn [ip_dict]; [|done].
  unfold dict_append. rewrite dict_get_set.
  destruct (String.eqb K (first_three_octets n)); [|done].
  intros [= H]. by destruct (default [] _).
Qed.

(** The second loop: a key is gone when an explicit subnet has it, and
    keeps its group otherwise. *)
Lemma drop_covered_get K subnets d :
  NoDup (dict_keys d) ->
  dict_get K (fold_left drop_covered subnets d)
  = if decide (K ∈ first_three_octets <$> subnets) then None else dict_get K d.
Proof.
  revert d. induction subnets as [|s subnets IH]; intros d Hd.
  - cbn. by rewrite decide_False by apply not_elem_of_nil.
  - cbn [fold_left].
    assert (NoDup (dict_keys (drop_covered d s))) as Hd'.
    { unfold drop_covered. case_bool_decide; [|done]. unfold dict_keys.
      eapply sublist_NoDup; [exact Hd | apply fmap_sublist, dict_del_sublist]. }
    rewrite IH by done. rewrite fmap_cons.
    assert (dict_get K (drop_covered d s)
            = if String.eqb K (first_three_octets s) then None else dict_get K d)
      as ->.
    { unfold drop_covered. case_bool_decide as Hsome.
      - by apply dict_get_del.
      - destruct (String.eqb_spec K (first_three_octets s)) as [->|?]; [|done].
        destruct (dict_get _ d); [|done]. exfalso. apply Hsome. eauto. }
    destruct (String.eqb_spec K (first_three_octets s)) as [->|Hne];
      repeat case_decide; try done; set_solver.
Qed.

(** The third loop: what it adds to [result] and what it leaves in
    [individual_ips]. *)
Lemma aggregate_result threshold d acc s :
  s ∈ (fold_left (aggregate_group threshold) d acc).1 <->
  s ∈ acc.1
  \/ exists K l, (K, l) ∈ d /\ (threshold <= Z.of_nat (length l))%Z
                 /\ s = (K ++ ".0/24")%string.
Proof.
  revert acc. induction d as [|[K l] d IH]; intros acc; cbn [fold_left].
  - split; [by left|]. intros [?|(K & l & Hin & _)]; [done|].
    by apply elem_of_nil in Hin.
  - rewrite IH. unfold aggregate_group.
    destruct (Z.leb_spec threshold (Z.of_nat (length l))) as [Hle|Hlt]; cbn [fst].
    + rewrite elem_of_union, elem_of_singleton. split.
      * intros [[->| ?]|(K' & l' & Hin & ? & ->)]; [right|by left|right].
        -- exists K, l. split_and!; [left|done..].
        -- exists K', l'. split_and!; [by right|done..].
      * intros [?|(K' & l' & [[= -> ->]|Hin]%elem_of_cons & ? & ->)];
          [left; by right|left; by left|right; eauto].
    + split.
      * intros [?|(K' & l' & Hin & ? & ->)]; [by left|right].
        exists K', l'. split_and!; [by right|done..].
      * intros [?|(K' & l' & [[= -> ->]|Hin]%elem_of_cons & ? & ->)];
          [by left|lia|right; eauto].
Qed.

Lemma aggregate_individual threshold d acc n :
  n ∈ (fold_left (aggregate_group threshold) d acc).2 <->
  n ∈ acc.2
  /\ forall K l, (K, l) ∈ d -> (threshold <= Z.of_nat (length l))%Z -> n ∉ l.
Proof.
  revert acc. induction d as [|[K l] d IH]; intros acc; cbn [fold_left].
  - split; [|by intros [? _]]. intros ?. split; [done|].
    intros K l Hin. by apply elem_of_nil in Hin.
  - rewrite IH. unfold aggregate_group.
    destruct (Z.leb_spec threshold (Z.of_nat (length l))) as [Hle|Hlt]; cbn [snd].
    + rewrite elem_of_difference, elem_of_list_to_set. split.
      * intros [[Hn Hnl] Hd]. split; [done|].
        intros K' l' [[= -> ->]|Hin]%elem_of_cons ?; [done | by eapply Hd].
      * intros [Hn Hd]. split_and!; [done| |].
        -- apply (Hd K l); [left | done].
        -- intros K' l' Hin. apply (Hd K'). by right.
    + split.
      * intros [Hn Hd]. split; [done|].
        intros K' l' [[= -> ->]|Hin]%elem_of_cons ?; [lia | by eapply Hd].
      * intros [Hn Hd]. split; [done|]. intros K' l' Hin. apply (Hd K'). by right.
Qed.

Lemma group_of_elem K nets n :
  n ∈ group_of K nets <->
  n ∈ nets /\ is_host n = true /\ first_three_octets n = K.
Proof.
  unfold group_of. rewrite !list_elem_of_In, filter_In, andb_true_iff.
  by rewrite String.eqb_eq.
Qed.

Lemma is_host_false n : is_host n = false <-> prefixlen n <> 32%N.
Proof. unfold is_host. apply N.eqb_neq. Qed.

Lemma is_host_true n : is_host n = true <-> prefixlen n = 32%N.
Proof. unfold is_host. apply N.eqb_eq. Qed.

(** After the first loop a key is in [ip_dict] exactly when some host has
    it, with the hosts of the key in the order of the input. *)
Lemma classify_fold_lookup K nets l :
  dict_get K (ip_dict (fold_left classify_network nets (Grouping [] ∅ ∅)))
  = Some l
  <-> l = group_of K nets /\ l <> [].
Proof.
  pose proof (classify_fold_get K nets (Grouping [] ∅ ∅)) as Hget.
  assert (forall K', dict_get K' (ip_dict (Grouping [] ∅ ∅)) <> Some [])
    as H0 by done.
  pose proof (classify_fold_nonempty nets _ H0 K) as Hne.
  cbn [ip_dict dict_get default app] in Hget.
  destruct (dict_get K _) as [l0|]; cbn [default] in Hget; unfold id in Hget.
  - split.
    + intros [= <-]. split; [done | congruence].
    + intros [-> _]. by rewrite Hget.
  - split; [done|]. intros [-> H]. by rewrite <- Hget in H.
Qed.

(** What is left of [ip_dict] after the second loop. *)
Lemma dropped_dict_elem nets K l :
  let g := fold_left classify_network nets (Grouping [] ∅ ∅) in
  (K, l) ∈ fold_left drop_covered (elements (existing_subnets g)) (ip_dict g)
  <-> ~ covered K nets /\ l = group_of K nets /\ l <> [].
Proof.
  intros g.
  assert (ip_dict_inv (ip_dict g)) as [Hnd _].
  { apply classify_fold_inv. split; [constructor|].
    intros k l' Hin. by apply elem_of_nil in Hin. }
  assert (NoDup (dict_keys
            (fold_left drop_covered (elements (existing_subnets g)) (ip_dict g))))
    as Hnd'.
  { unfold dict_keys. eapply sublist_NoDup; [exact Hnd|].
    apply fmap_sublist, drop_covered_sublist. }
  assert (K ∈ first_three_octets <$> elements (existing_subnets g)
          <-> covered K nets) as Hcov.
  { rewrite list_elem_of_fmap. unfold covered. split.
    - intros (s & -> & Hs). exists s.
      apply elem_of_elements, classify_fold_existing in Hs as [Hs|[Hs Hlen]].
      + by apply elem_of_empty in Hs.
      + by rewrite is_host_false.
    - intros (s & Hs & Hh & <-). exists s. split; [done|].
      apply elem_of_elements, classify_fold_existing. right.
      by rewrite <- is_host_false. }
  pose proof (drop_covered_get K (elements (existing_subnets g)) (ip_dict g) Hnd)
    as Hget.
  split.
  - intros Hin%(dict_In_get _ _ _ Hnd'). rewrite Hget in Hin.
    case_decide as Hc; [done|]. rewrite Hcov in Hc.
    by apply classify_fold_lookup in Hin as [-> ?].
  - intros (Hc & -> & Hne). apply dict_get_Some_In. rewrite Hget.
    rewrite decide_False by by rewrite Hcov.
    by apply classify_fold_lookup.
Qed.

(** The entries of the result, for networks that were parsed: the /24 of
    every aggregated key, every explicit subnet, and every host whose key
    is not aggregated. *)
Lemma grouped_result_elem nets threshold s :
  s ∈ grouped_result (fold_left classify_network nets (Grouping [] ∅ ∅)) threshold
  <->
  (exists K, aggregated threshold K nets /\ s = (K ++ ".0/24")%string)
  \/ (exists n, n ∈ nets /\ is_host n = false /\ s = str_network n)
  \/ (exists n, n ∈ nets /\ is_host n = true
                /\ ~ aggregated threshold (first_three_octets n) nets
                /\ s = str_network n).
Proof.
  pose proof (dropped_dict_elem nets) as Hd. cbv zeta in Hd.
  set (g := fold_left classify_network nets (Grouping [] ∅ ∅)) in *.
  unfold grouped_result.
  set (d := fold_left drop_covered (elements (existing_subnets g)) (ip_dict g)) in *.
  pose proof (aggregate_result threshold d (∅, individual_ips g) s) as Hr.
  pose proof (fun n => aggregate_individual threshold d (∅, individual_ips g) n)
    as Hi.
  destruct (fold_left (aggregate_group threshold) d _) as [r i].
  cbn [fst snd] in Hr, Hi.
  rewrite !elem_of_union, Hr, !elem_of_map.
  assert (forall n, n ∈ i <->
            n ∈ nets /\ is_host n = true
            /\ ~ aggregated threshold (first_three_octets n) nets) as Hi'.
  { intros n. rewrite Hi. unfold g. rewrite classify_fold_individual.
    rewrite <- is_host_true. split.
    - intros [[Hn|[Hn Hh]] Hnot]; [by apply elem_of_empty in Hn|].
      split_and!; [done..|]. intros (Hc & Hne & Hlen).
      apply (Hnot (first_three_octets n) (group_of (first_three_octets n) nets)).
      + by apply Hd.
      + done.
      + by apply group_of_elem.
    - intros (Hn & Hh & Hnot). split; [by right|].
      intros K l (Hc & -> & Hne)%Hd Hlen (_ & _ & <-)%group_of_elem.
      by apply Hnot. }
  split.
  - intros [[[Hs|(K & l & (Hc & -> & Hne)%Hd & Hlen & ->)]|(n & -> & Hn)]
           |(n & -> & Hn)].
    + by apply elem_of_empty in Hs.
    + left. by exists K.
    + right. left. exists n.
      apply classify_fold_existing in Hn as [Hn|[Hn Hlen]];
        [by apply elem_of_empty in Hn|].
      by rewrite is_host_false.
    + right. right. exists n. apply Hi' in Hn. naive_solver.
  - intros [(K & (Hc & Hne & Hlen) & ->)|[(n & Hn & Hh & ->)|(n & Hn & Hh & Hnot & ->)]].
    + left. left. right. exists K, (group_of K nets). split_and!; [|done..].
      by apply Hd.
    + left. right. exists n. split; [done|].
      apply classify_fold_existing. right. by rewrite <- is_host_false.
    + right. exists n. split; [done|]. by apply Hi'.
Qed.

(** The text of a /32 entry does not end in [.0/24]. *)
Lemma str_network_host_not_24 n K :
  prefixlen n = 32%N -> str_network n <> (K ++ ".0/24")%string.
Proof.
  intros Hlen Heq. unfold str_network in Heq. rewrite Hlen in Heq.
  apply (f_equal (Py.rpartition "/")) in Heq.
  change ("/" ++ Py.str_int 32)%string with (String "/" "32") in Heq.
  change (K ++ ".0/24")%string with (K ++ ".0" ++ String "/" "24")%string in Heq.
  rewrite <- (append_assoc K ".0") in Heq.
  rewrite !rpartition_last in Heq by done. congruence.
Qed.

(** Two keys with the same /24 text are the same key. *)
Lemma octets_24_inj K K' :
  (K ++ ".0/24")%string = (K' ++ ".0/24")%string -> K = K'.
Proof.
  intros Heq. apply (f_equal (Py.rpartition ".")) in Heq.
  change ".0/24" with (String "." "0/24") in Heq.
  rewrite !rpartition_last in Heq by done. congruence.
Qed.

Lemma Forall2_parses_elem_inv addresses nets n :
  Forall2 parses addresses nets -> n ∈ nets ->
  exists e, e ∈ addresses /\ parses e n.
Proof.
  induction 1 as [|e' n' es ns He _ IH]; intros Hin.
  - by apply elem_of_nil in Hin.
  - apply elem_of_cons in Hin as [->|Hin].
    + exists e'. split; [left | done].
    + destruct (IH Hin) as (e & ? & ?). exists e. split; [by right | done].
Qed.

(** C1, as the code has it.  When every entry parses, the output has no
    repeated entry and holds every explicit subnet.  The hosts whose first
    three octets are those of an explicit subnet are not aggregated: each
    of them is in the output as an entry of its own, and the /24 of these
    octets is in the output only when it is itself the text of an explicit
    subnet of the input. *)
Theorem explicit_subnet_keeps_hosts (addresses : list string)
    (threshold : Z) (w : world) :
  Forall (fun e => exists n, parses e n) addresses ->
  exists out,
    group_ips_into_subnets addresses threshold w
    = (Ok out, logged (GroupedIntoSubnets (length out)) w)
    /\ NoDup out
    /\ forall sub s,
         sub ∈ addresses -> parses sub s -> prefixlen s <> 32%N ->
         str_network s ∈ out
         /\ (forall host h,
               host ∈ addresses -> parses host h -> prefixlen h = 32%N ->
               first_three_octets h = first_three_octets s ->
               str_network h ∈ out)
         /\ ((first_three_octets s ++ ".0/24")%string ∈ out ->
             exists sub' s',
               sub' ∈ addresses /\ parses sub' s' /\ prefixlen s' <> 32%N
               /\ str_network s' = (first_three_octets s ++ ".0/24")%string).
Proof.
  intros (nets & Hparse)%parses_all.
  pose proof (classify_all _ _ (Grouping [] ∅ ∅) Hparse) as Hrun.
  set (g := fold_left classify_network nets (Grouping [] ∅ ∅)) in *.
  exists (elements (grouped_result g threshold)).
  split; [exact (group_run _ _ _ _ Hrun)|].
  split; [apply NoDup_elements|].
  assert (ip_dict_inv (ip_dict g)) as Hinv.
  { apply classify_fold_inv. split; [constructor|].
    intros k l Hin. by apply elem_of_nil in Hin. }
  intros sub s Hsub Hs Hlen.
  assert (s ∈ nets) as Hsn by (eapply Forall2_parses_elem; eauto).
  assert (s ∈ existing_subnets g) as Hsg.
  { apply classify_fold_existing. by right. }
  split_and!.
  - apply elem_of_elements. by apply grouped_result_existing.
  - intros host h Hhost Hh Hlen' Hoct.
    apply elem_of_elements. apply (grouped_result_host g threshold s h); try done.
    apply classify_fold_individual. right. split; [|done].
    eapply Forall2_parses_elem; eauto.
  - intros Hin. apply elem_of_elements in Hin. unfold g in Hin.
    apply grouped_result_elem in Hin
      as [(K & Hagg & HK)|[(n & Hn & Hh & Hn24)|(n & Hn & Hh & _ & Hn24)]].
    + apply octets_24_inj in HK as <-. destruct Hagg as [Hcov _].
      exfalso. apply Hcov. exists s. by rewrite is_host_false.
    + destruct (Forall2_parses_elem_inv _ _ _ Hparse Hn) as (e & He & Hpe).
      exists e, n. by rewrite <- is_host_false.
    + exfalso. apply is_host_true in Hh.
      by apply (str_network_host_not_24 n (first_three_octets s)).
Qed.

(** Membership in a list that is written out. *)
Ltac in_list :=
  first [ apply list_elem_of_here | apply list_elem_of_further; in_list ].

(** Every entry of a list that is written out parses. *)
Ltac all_parse :=
  repeat (constructor; [eexists; vm_compute; reflexivity|]); constructor.

(** The subnet 1.2.3.128/25 with three hosts of 1.2.3.0/24 and a
    threshold of three: the subnet and the three hosts are in the output,
    and 1.2.3.0/24 is not. *)
Lemma explicit_subnet_keeps_hosts_example :
  exists out,
    group_ips_into_subnets ["1.2.3.128/25"; "1.2.3.1"; "1.2.3.2"; "1.2.3.3"] 3
      empty_world
    = (Ok out, logged (GroupedIntoSubnets (length out)) empty_world)
    /\ NoDup out
    /\ "1.2.3.128/25" ∈ out
    /\ "1.2.3.1/32" ∈ out /\ "1.2.3.2/32" ∈ out /\ "1.2.3.3/32" ∈ out
    /\ "1.2.3.0/24" ∉ out.
Proof.
  destruct (explicit_subnet_keeps_hosts
              ["1.2.3.128/25"; "1.2.3.1"; "1.2.3.2"; "1.2.3.3"] 3 empty_world)
    as (out & Hrun & Hnd & Hin); [all_parse|].
  exists out. split; [exact Hrun|]. split; [exact Hnd|].
  destruct (Hin "1.2.3.128/25" (Network (IPv4Address 16909184) 25))
    as (Hsub & Hhosts & Hagg); [in_list | vm_compute; reflexivity | discriminate |].
  split; [exact Hsub|].
  split; [|split; [|split]].
  - apply (Hhosts "1.2.3.1" (Network (IPv4Address 16909057) 32));
      [in_list | vm_compute; reflexivity | reflexivity | vm_compute; reflexivity].
  - apply (Hhosts "1.2.3.2" (Network (IPv4Address 16909058) 32));
      [in_list | vm_compute; reflexivity | reflexivity | vm_compute; reflexivity].
  - apply (Hhosts "1.2.3.3" (Network (IPv4Address 16909059) 32));
      [in_list | vm_compute; reflexivity | reflexivity | vm_compute; reflexivity].
  - intros H24.
    destruct Hagg as (sub' & s' & Hsub' & Hs' & Hlen' & Htext);
      [exact H24|].
    unfold parses in Hs'.
    repeat (apply elem_of_cons in Hsub' as [->|Hsub'];
            [vm_compute in Hs'; injection Hs' as <-;
             first [by apply Hlen' | by vm_compute in Htext]|]).
    by apply elem_of_nil in Hsub'.
Defined.

(** C1 as stated fails: with the explicit 1.2.3.0/24 and three of its hosts
    at a threshold of three, the output is not the subnet alone; the three
    hosts are returned with it. *)
Lemma explicit_subnet_output_has_hosts :
  exists out w',
    group_ips_into_subnets ["1.2.3.0/24"; "1.2.3.1"; "1.2.3.2"; "1.2.3.3"] 3
      empty_world = (Ok out, w')
    /\ out ≡ₚ ["1.2.3.3/32"; "1.2.3.1/32"; "1.2.3.2/32"; "1.2.3.0/24"]
    /\ out <> ["1.2.3.0/24"].
Proof.
  eexists _, _. split; [vm_compute; reflexivity|].
  split; [reflexivity | discriminate].
Qed.

(** ** [sorted] *)

Section sorted_facts.
Context {A : Type} (lt : A -> A -> result bool).

Lemma insert_sorted_perm x l l' :
  insert_sorted lt x l = Ok l' -> l' ≡ₚ x :: l.
Proof.
  revert l'. induction l as [|y l IH]; intros l'; simpl.
  - by intros [= <-].
  - unfold mbind, result_bind, rbind. destruct (lt y x) as [[|]|]; [| |done].
    + destruct (insert_sorted lt x l) as [l''|]; [|done]. intros [= <-].
      rewrite (IH l'' eq_refl). apply Permutation_swap.
    + by intros [= <-].
Qed.

Lemma sorted_perm l s : sorted lt l = Ok s -> s ≡ₚ l.
Proof.
  revert s. induction l as [|x l IH]; intros s; simpl.
  - by intros [= <-].
  - unfold mbind, result_bind, rbind. destruct (sorted lt l) as [s'|]; [|done].
    intros Hins%insert_sorted_perm. by rewrite Hins, (IH s' eq_refl).
Qed.

(** On a domain where [lt] answers and agrees with a transitive order
    [le], the sort returns, and what it returns is sorted. *)
Context (le : A -> A -> Prop) (dom : A -> Prop).
Context (le_trans : forall x y z, le x y -> le y z -> le x z).
Context (lt_le : forall x y, dom x -> dom y ->
           exists b : bool, lt y x = Ok b /\ if b then le y x else le x y).

Lemma insert_sorted_ok x l :
  dom x -> Forall dom l -> StronglySorted le l ->
  exists l', insert_sorted lt x l = Ok l' /\ StronglySorted le l'.
Proof.
  intros Hx. induction l as [|y l IH]; intros Hl Hs; simpl.
  - eexists. split; [done|]. repeat constructor.
  - apply Forall_cons in Hl as [Hy Hl]. apply StronglySorted_inv in Hs as [Hs Hyl].
    destruct (lt_le x y Hx Hy) as (b & -> & Hb). unfold mbind, result_bind, rbind.
    destruct b.
    + destruct (IH Hl Hs) as (l' & Hins & Hs'). rewrite Hins.
      eexists. split; [done|]. constructor; [done|].
      apply insert_sorted_perm in Hins. rewrite Hins.
      by constructor.
    + eexists. split; [done|]. constructor; [by constructor|].
      constructor; [done|]. eapply Forall_impl; [exact Hyl|].
      intros z Hz. by eapply le_trans.
Qed.

Lemma sorted_ok l :
  Forall dom l -> exists s, sorted lt l = Ok s /\ StronglySorted le s.
Proof.
  induction l as [|x l IH]; intros Hl; simpl.
  - eexists. split; [done|]. constructor.
  - apply Forall_cons in Hl as [Hx Hl]. destruct (IH Hl) as (s & Hs & Hss).
    rewrite Hs. unfold mbind, result_bind, rbind.
    apply insert_sorted_ok; [done| |done].
    apply sorted_perm in Hs. by rewrite Hs.
Qed.
End sorted_facts.

Lemma StronglySorted_fmap {A B} (R : A -> A -> Prop) (R' : B -> B -> Prop)
    (f : A -> B) (P : A -> Prop) l :
  (forall x y, P x -> P y -> R x y -> R' (f x) (f y)) ->
  Forall P l -> StronglySorted R l -> StronglySorted R' (f <$> l).
Proof.
  intros HR. induction l as [|x l IH]; intros Hl Hs; simpl; [constructor|].
  apply Forall_cons in Hl as [Hx Hl]. apply StronglySorted_inv in Hs as [Hs Hxl].
  constructor; [by apply IH|]. apply Forall_fmap.
  rewrite Forall_forall in Hxl, Hl. apply Forall_forall. intros y Hy. simpl.
  apply HR; auto.
Qed.

Section sorted_by_key_facts.
Context {A K : Type} (key : A -> result K) (lt : K -> K -> result bool).

Lemma keyed_loop items acc keyed :
  for_each_pure items (fun acc x => k ← key x; Ok (acc ++ [(k, x)])) acc
  = Ok keyed ->
  exists new, keyed = acc ++ new /\ new.*2 = items
              /\ Forall (fun p => key p.2 = Ok p.1) new.
Proof.
  revert acc. induction items as [|x items IH]; intros acc; simpl.
  - intros [= <-]. exists []. by rewrite app_nil_r.
  - unfold mbind, result_bind, rbind. destruct (key x) as [k|] eqn:Hk; [|done].
    intros (new & -> & Hnew & Hall)%IH. exists ((k, x) :: new).
    rewrite <- app_assoc. split; [done|]. split; [by rewrite <- Hnew|].
    by constructor.
Qed.

Lemma keyed_loop_ok items acc :
  Forall (fun x => exists k, key x = Ok k) items ->
  exists keyed,
    for_each_pure items (fun acc x => k ← key x; Ok (acc ++ [(k, x)])) acc
    = Ok keyed.
Proof.
  intros H. revert acc. induction H as [|x items [k Hk] _ IH]; intros acc; simpl.
  - by eexists.
  - unfold mbind, result_bind, rbind. rewrite Hk. apply IH.
Qed.

Lemma sorted_by_key_perm items out :
  sorted_by_key key lt items = Ok out -> out ≡ₚ items.
Proof.
  unfold sorted_by_key, mbind, result_bind, rbind.
  destruct (for_each_pure _ _ _) as [keyed|] eqn:Hkeyed; [|done].
  apply keyed_loop in Hkeyed as (new & -> & Hnew & _). simpl.
  destruct (sorted _ _) as [s|] eqn:Hs; [|done]. intros [= <-].
  apply sorted_perm in Hs. by rewrite Hs, Hnew.
Qed.

Context (le : K -> K -> Prop) (dom : K -> Prop).
Context (le_trans : forall x y z, le x y -> le y z -> le x z).
Context (lt_le : forall x y, dom x -> dom y ->
           exists b : bool, lt y x = Ok b /\ if b then le y x else le x y).

Lemma sorted_by_key_ok items :
  Forall (fun x => exists k, key x = Ok k /\ dom k) items ->
  exists out,
    sorted_by_key key lt items = Ok out
    /\ StronglySorted
         (fun x y => exists kx ky, key x = Ok kx /\ key y = Ok ky /\ le kx ky)
         out.
Proof.
  intros Hitems. unfold sorted_by_key.
  destruct (keyed_loop_ok items []) as [keyed Hkeyed].
  { eapply Forall_impl; [exact Hitems|]. intros x (k & ? & _). eauto. }
  rewrite Hkeyed. apply keyed_loop in Hkeyed as (new & -> & Hnew & Hkeys).
  unfold mbind, result_bind, rbind. simpl.
  assert (Forall (fun p : K * A => key p.2 = Ok p.1 /\ dom p.1) new) as Hdom.
  { subst items. clear -Hitems Hkeys. induction new as [|[k x] new IH]; [constructor|].
    apply Forall_cons in Hkeys as [Hk Hkeys]. simpl in Hitems.
    apply Forall_cons in Hitems as [(k' & Hk' & Hd) Hitems].
    constructor; [|by apply IH]. simpl in *. split; [done|]. congruence. }
  destruct (sorted_ok (fun a b : K * A => lt a.1 b.1)
              (fun a b => le a.1 b.1) (fun p => key p.2 = Ok p.1 /\ dom p.1))
    with (l := new) as (s & Hs & Hsorted); [by eauto| |done|].
  { intros x y [_ Hx] [_ Hy]. by apply lt_le. }
  rewrite Hs. eexists. split; [done|].
  apply (StronglySorted_fmap (fun a b : K * A => le a.1 b.1) _ _
           (fun p => key p.2 = Ok p.1 /\ dom p.1)); [| |done].
  - intros [kx x] [ky y] [Hx _] [Hy _] Hle. simpl in *. eauto.
  - apply sorted_perm in Hs. by rewrite Hs.
Qed.
End sorted_by_key_facts.

(** ** [sort_entries_by_cidr] *)

(** A decidable statement about values that are written out. *)
Ltac by_decide :=
  match goal with
  | |- ?P => apply (bool_decide_unpack P); vm_compute; exact I
  end.

Lemma key_le_trans (x y z : N * address) : key_le x y -> key_le y z -> key_le x z.
Proof. unfold key_le. intros [?|[? ?]] [?|[? ?]]; [left|left|left|right]; lia. Qed.

Lemma sort_key_lt_le (x y : N * address) :
  (x.1 = y.1 -> version x.2 = version y.2) ->
  exists b : bool,
    sort_key_lt y x = Ok b /\ if b then key_le y x else key_le x y.
Proof.
  destruct x as [px ax], y as [py ay]. simpl. intros Hv.
  unfold sort_key_lt, key_le. simpl. destruct (N.eqb_spec py px) as [->|Hne].
  - case_decide as Heq.
    + subst. exists false. split; [done|]. right. lia.
    + specialize (Hv eq_refl). destruct ax, ay; simpl in *; try congruence.
      * eexists. split; [done|]. destruct (N.ltb_spec ip0 ip); right; lia.
      * eexists. split; [done|]. destruct (N.ltb_spec ip0 ip); right; lia.
  - eexists. split; [done|]. destruct (N.ltb_spec py px); left; lia.
Qed.

Lemma sort_entries_by_cidr_run entries w items :
  sorted_by_key (fun item : string * string => sort_key item.1) sort_key_lt entries
  = Ok items ->
  sort_entries_by_cidr entries w
  = (Ok (dict_of_items items),
     logged (SortedSubnets (length (dict_of_items items))) w).
Proof.
  intros H. unfold sort_entries_by_cidr, mbind, M_bind, lift. by rewrite H.
Qed.

Lemma sort_entries_by_cidr_inv entries w out w' :
  sort_entries_by_cidr entries w = (Ok out, w') ->
  exists items,
    sorted_by_key (fun item : string * string => sort_key item.1) sort_key_lt
      entries = Ok items
    /\ out = dict_of_items items
    /\ w' = logged (SortedSubnets (length out)) w.
Proof.
  unfold sort_entries_by_cidr, mbind, M_bind, lift.
  destruct (sorted_by_key _ _ _) as [items|]; [|done].
  intros [= <- <-]. eauto.
Qed.

Lemma dict_get_perm {V} (d d' : dict V) k :
  NoDup (dict_keys d) -> d ≡ₚ d' -> dict_get k d = dict_get k d'.
Proof.
  intros Hnd Hperm.
  assert (NoDup (dict_keys d')) as Hnd'.
  { unfold dict_keys in *. by rewrite <- Hperm. }
  destruct (dict_get k d) as [v|] eqn:Hget.
  - symmetry. apply dict_In_get; [done|]. rewrite <- Hperm.
    by apply dict_get_Some_In.
  - symmetry. apply dict_get_None. apply dict_get_None in Hget.
    unfold dict_keys in *. by rewrite <- Hperm.
Qed.

(** On keys that it can order the sort returns, and the entries it returns
    are in the order of the key. *)
Lemma sort_entries_sorted (entries : dict string) :
  NoDup (dict_keys entries) ->
  sortable (dict_keys entries) ->
  exists out,
    sorted_by_key (fun item : string * string => sort_key item.1) sort_key_lt
      entries = Ok out
    /\ dict_of_items out = out
    /\ out ≡ₚ entries
    /\ StronglySorted entry_le (dict_keys out).
Proof.
  intros Hnd [Hparse Hvers].
  destruct (sorted_by_key_ok (fun item : string * string => sort_key item.1)
              sort_key_lt key_le
              (fun k => exists e, e ∈ dict_keys entries /\ sort_key e = Ok k)
              key_le_trans) with (items := entries)
    as (out & Hout & Hsorted).
  { intros x y (ex & Hex & Hx) (ey & Hey & Hy). apply sort_key_lt_le.
    unfold sort_key, mbind, result_bind, rbind in Hx, Hy.
    destruct (ip_network ex) as [nx|] eqn:Hnx; [|done].
    destruct (ip_network ey) as [ny|] eqn:Hny; [|done].
    injection Hx as <-. injection Hy as <-. simpl. eauto. }
  { rewrite Forall_forall in Hparse. apply Forall_forall. intros [e c] Hin.
    apply (list_elem_of_fmap_2 fst) in Hin. simpl in *.
    destruct (Hparse e Hin) as [n Hn].
    exists (prefixlen n, network_address n).
    assert (sort_key e = Ok (prefixlen n, network_address n)) as Hkey
      by (unfold sort_key, mbind, result_bind, rbind; by rewrite Hn).
    eauto. }
  exists out. split; [done|].
  pose proof (sorted_by_key_perm _ _ _ _ Hout) as Hperm.
  split; [|split; [done|]].
  - apply dict_of_items_NoDup. unfold dict_keys in *. by rewrite Hperm.
  - unfold dict_keys.
    apply (StronglySorted_fmap
             (fun x y : string * string => exists kx ky,
                 sort_key x.1 = Ok kx /\ sort_key y.1 = Ok ky /\ key_le kx ky)
             entry_le fst (fun _ => True)); [| |done].
    + intros x y _ _ H. exact H.
    + by apply Forall_true.
Qed.

(** Keys that all parse as IPv4 networks can be ordered. *)
Lemma sortable_one_version (keys : list string) (v : ip_version) :
  Forall (fun e => exists n,
            ip_network e = Ok n /\ version (network_address n) = v) keys ->
  sortable keys.
Proof.
  intros H. rewrite Forall_forall in H. split.
  - apply Forall_forall. intros e (n & Hn & _)%H. eauto.
  - intros e1 e2 n1 n2 (m1 & Hm1 & Hv1)%H (m2 & Hm2 & Hv2)%H Hn1 Hn2 _.
    congruence.
Qed.




(** C10.  Whenever [sort_entries_by_cidr] returns, it returns the entries
    it was given: the same keys with the same comments, in another order;
    in the world only the log grows.  It returns on every mapping whose
    keys it can order. *)
Theorem sort_entries_by_cidr_frame (entries : dict string) (w : world) :
  NoDup (dict_keys entries) ->
  (sortable (dict_keys entries) ->
   exists out, (sort_entries_by_cidr entries w).1 = Ok out)
  /\ forall out w',
       sort_entries_by_cidr entries w = (Ok out, w') ->
       out ≡ₚ entries
       /\ NoDup (dict_keys out)
       /\ (forall k, dict_get k out = dict_get k entries)
       /\ w' = logged (SortedSubnets (length out)) w.
Proof.
  intros Hnd. split.
  - intros Hkeys.
    destruct (sort_entries_sorted entries Hnd Hkeys) as (out & Hout & _).
    eexists. by rewrite (sort_entries_by_cidr_run _ _ _ Hout).
  - intros out w' (items & Hitems & -> & ->)%sort_entries_by_cidr_inv.
    apply sorted_by_key_perm in Hitems.
    assert (NoDup (dict_keys items)) as Hnd'
      by (unfold dict_keys in *; by rewrite Hitems).
    rewrite dict_of_items_NoDup by done. split_and!; try done.
    intros k. symmetry. apply dict_get_perm; [done|]. by symmetry.
Qed.

(** Two entries, sorted: the same pairs come back. *)
Lemma sort_entries_by_cidr_frame_example :
  exists out,
    sort_entries_by_cidr
      [("10.0.0.1/32", "b"); ("10.0.0.0/24", "a")] empty_world
    = (Ok out, logged (SortedSubnets (length out)) empty_world)
    /\ out ≡ₚ [("10.0.0.1/32", "b"); ("10.0.0.0/24", "a")]
    /\ dict_get "10.0.0.1/32" out = Some "b"
    /\ dict_get "10.0.0.0/24" out = Some "a".
Proof.
  destruct (sort_entries_by_cidr_frame
              [("10.0.0.1/32", "b"); ("10.0.0.0/24", "a")] empty_world)
    as [Hret Hframe]; [by_decide|].
  destruct Hret as [out Hout].
  { apply (sortable_one_version _ V4).
    repeat (constructor; [eexists; split; vm_compute; reflexivity|]). constructor. }
  destruct (sort_entries_by_cidr _ _) as [r w'] eqn:Hrun. simpl in Hout. subst r.
  destruct (Hframe out w' eq_refl) as (Hperm & _ & Hget & ->).
  exists out. split; [done|]. split; [done|]. by rewrite !Hget.
Defined.

(** Keys of both IP versions are ordered as long as the prefix lengths keep
    the versions apart. *)
Lemma sort_entries_by_cidr_two_versions :
  (sort_entries_by_cidr
     [("2001:db8::/48", "b"); ("10.0.0.0/24", "a")] empty_world).1
  = Ok [("10.0.0.0/24", "a"); ("2001:db8::/48", "b")].
Proof. vm_compute. reflexivity. Qed.

(** ** [write_to_output_file] *)

Lemma set_files_files fs w : files (set_files fs w) = fs.
Proof. done. Qed.

Lemma set_files_twice fs fs' w :
  set_files fs (set_files fs' w) = set_files fs w.
Proof. done. Qed.

Lemma write_entries_run max path entries c w :
  files w !! path = Some c ->
  for_each entries
    (fun _ item => file_write path (render_entry max item.1 item.2)) tt w
  = (Ok tt,
     set_files (<[path := (c ++ render_entries max entries)%string]> (files w)) w).
Proof.
  revert c w. induction entries as [|[k v] entries IH]; intros c w Hc.
  - simpl. rewrite append_nil_r, insert_id by done. by destruct w.
  - cbn [for_each render_entries]. unfold mbind, M_bind.
    unfold file_write at 1. rewrite Hc. cbn [default fst snd].
    erewrite IH by (rewrite set_files_files; apply lookup_insert_eq).
    rewrite set_files_files, set_files_twice, insert_insert_eq, append_assoc.
    done.
Qed.

Lemma written_lookup entries path config w :
  files (written entries path config w) !! path
  = Some (render_entries (fg_max_comment_length config) entries).
Proof. unfold written. rewrite set_files_files. apply lookup_insert_eq. Qed.

(** What [write_to_output_file] returns and leaves, case by case. *)
Lemma write_to_output_file_run entries path config w :
  write_to_output_file entries path config w =
  if (fg_max_entries config <? Z.of_nat (length entries))%Z then
    (Ok false, logged (EntriesExceedLimit (fg_max_entries config)) w)
  else if decide (path ∈ unwritable w) then
    (Ok false, logged (ErrorWritingOutput path) w)
  else
    let size :=
      Py.utf8_size (render_entries (fg_max_comment_length config) entries) in
    if (fg_max_size_bytes config <? size)%Z then
      (Ok false,
       logged (FileSizeExceedsLimit (fg_max_size_bytes config))
         (written entries path config w))
    else
      (Ok true, logged (OutputWritten path size) (written entries path config w)).
Proof.
  unfold write_to_output_file. destruct (_ <? _)%Z; [done|].
  unfold mbind, M_bind. unfold open_w at 1. case_decide; [done|].
  cbn zeta.
  erewrite write_entries_run by (rewrite set_files_files; apply lookup_insert_eq).
  rewrite set_files_files, set_files_twice, insert_insert_eq.
  change ("" ++ ?x)%string with x. fold (written entries path config w).
  unfold getsize at 1. unfold written at 1. rewrite set_files_files, lookup_insert_eq.
  cbn [default]. fold (written entries path config w).
  unfold id. destruct (_ <? _)%Z; [done|]. by rewrite written_lookup.
Qed.




(** ** Reading back what was written *)

Lemma all_chars_append p (a b : string) :
  Py.all_chars p (a ++ b) = Py.all_chars p a && Py.all_chars p b.
Proof.
  induction a as [|x a IH]; simpl; [done|]. rewrite IH. by rewrite andb_assoc.
Qed.

Lemma all_chars_contains p c s :
  Py.all_chars p s = true -> p c = false -> Py.contains c s = false.
Proof.
  intros Hs Hc. induction s as [|x s IH]; simpl in *; [done|].
  apply andb_true_iff in Hs as [Hx Hs]. rewrite (IH Hs), orb_false_r.
  apply Ascii.eqb_neq. intros ->. congruence.
Qed.

Lemma partition_None sep s :
  Py.contains sep s = false -> Py.partition sep s = None.
Proof.
  induction s as [|x s IH]; simpl; [done|].
  intros [Hx Hs]%orb_false_elim. by rewrite Hx, IH.
Qed.

Lemma partition_first sep (s t : string) :
  Py.contains sep s = false ->
  Py.partition sep (s ++ String sep t) = Some (s, t).
Proof.
  induction s as [|x s IH]; simpl.
  - by rewrite Ascii.eqb_refl.
  - intros [Hx Hs]%orb_false_elim. by rewrite Hx, IH.
Qed.

Lemma lstrip_none p s :
  Py.all_chars (fun a => negb (p a)) s = true -> Py.lstrip p s = s.
Proof.
  destruct s as [|x s]; simpl; [done|].
  intros [Hx _]%andb_true_iff. apply negb_true_iff in Hx. by rewrite Hx.
Qed.

Lemma rstrip_none p s :
  Py.all_chars (fun a => negb (p a)) s = true -> Py.rstrip p s = s.
Proof.
  induction s as [|x s IH]; simpl; [done|].
  intros [Hx Hs]%andb_true_iff. apply negb_true_iff in Hx.
  rewrite (IH Hs), Hx. by destruct s.
Qed.

Lemma rstrip_all p s : Py.all_chars p s = true -> Py.rstrip p s = "".
Proof.
  induction s as [|x s IH]; simpl; [done|].
  intros [Hx Hs]%andb_true_iff. by rewrite (IH Hs), Hx.
Qed.

Lemma rstrip_app_all p (s t : string) :
  Py.all_chars p t = true -> Py.rstrip p (s ++ t) = Py.rstrip p s.
Proof.
  intros Ht. induction s as [|x s IH]; simpl; [by apply rstrip_all|].
  by rewrite IH.
Qed.

Lemma rstrip_app_last p (s : string) a :
  p a = false -> Py.rstrip p (s ++ String a "") = (s ++ String a "")%string.
Proof.
  intros Ha. induction s as [|x s IH]; simpl; [by rewrite Ha|].
  rewrite IH. by destruct s.
Qed.

Lemma lstrip_app p (s t : string) :
  Py.lstrip p (s ++ t)
  = match Py.lstrip p s with
    | EmptyString => Py.lstrip p t
    | r => (r ++ t)%string
    end.
Proof.
  induction s as [|x s IH]; simpl; [done|]. destruct (p x); [exact IH | done].
Qed.

Lemma startswith_cons a b s :
  Py.startswith (String a "") (String b s) = Ascii.eqb a b.
Proof.
  unfold Py.startswith. cbn [String.prefix].
  destruct (ascii_dec a b) as [->|Hne].
  - rewrite Ascii.eqb_refl. by destruct s.
  - symmetry. by apply Ascii.eqb_neq.
Qed.

(** A trailing line feed does not change what [strip] returns. *)
Lemma strip_app_LF s : Py.strip (s ++ String Py.LF "") = Py.strip s.
Proof.
  unfold Py.strip. rewrite lstrip_app.
  destruct (Py.lstrip Py.isspace s) as [|x r] eqn:Hs; [done|].
  by rewrite rstrip_app_all.
Qed.

Lemma lstrip_space_isspace s :
  Py.lstrip Py.isspace (Py.lstrip (fun a => Ascii.eqb a " ") s)
  = Py.lstrip Py.isspace s.
Proof.
  induction s as [|x s IH]; simpl; [done|].
  destruct (Ascii.eqb_spec x " ") as [->|Hx]; [exact IH | done].
Qed.

(** Stripping [#] and spaces from [c] followed by a line feed removes the
    leading spaces of [c] and no more, when what follows them does not
    start with [#]. *)
Lemma lstrip_hash_space c :
  Py.startswith "#" (Py.lstrip (fun a => Ascii.eqb a " ") c) = false ->
  Py.lstrip (fun a => Py.contains a "# ") (c ++ String Py.LF "")
  = (Py.lstrip (fun a => Ascii.eqb a " ") c ++ String Py.LF "")%string.
Proof.
  induction c as [|x c IH]; [done|]. cbn [Py.lstrip String.append].
  destruct (Ascii.eqb_spec x " ") as [->|Hx]; [exact IH|].
  rewrite startswith_cons. intros Hhash. cbn [String.append].
  assert (Py.contains x "# " = false) as ->; [|done].
  cbn [Py.contains]. rewrite Hhash, orb_false_r. cbn [orb].
  apply Ascii.eqb_neq. congruence.
Qed.

Lemma strip_comment c :
  Py.startswith "#" (Py.lstrip (fun a => Ascii.eqb a " ") c) = false ->
  Py.strip (Py.strip_chars "# " ("# " ++ c ++ String Py.LF "")) = Py.strip c.
Proof.
  intros Hc. unfold Py.strip_chars.
  change (Py.lstrip (fun a => Py.contains a "# ") ("# " ++ c ++ String Py.LF ""))
    with (Py.lstrip (fun a => Py.contains a "# ") (c ++ String Py.LF "")).
  rewrite lstrip_hash_space, rstrip_app_last, strip_app_LF by done.
  unfold Py.strip. by rewrite lstrip_space_isspace.
Qed.

Lemma strip_plain k :
  Py.all_chars (fun a => negb (Py.isspace a)) k = true -> Py.strip k = k.
Proof. intros Hk. unfold Py.strip. by rewrite lstrip_none, rstrip_none. Qed.

Lemma strip_nonempty a s : Py.isspace a = false -> Py.strip (String a s) <> "".
Proof.
  intros Ha. unfold Py.strip. cbn [Py.lstrip]. rewrite Ha. cbn [Py.rstrip].
  destruct (Py.rstrip Py.isspace s); by rewrite ?Ha.
Qed.

Lemma plain_key_inv k :
  plain_key k = true ->
  exists a k', k = String a k' /\ Py.isspace a = false /\ Ascii.eqb "#" a = false
               /\ Py.all_chars (fun a => negb (Py.isspace a)) k = true.
Proof.
  unfold plain_key. intros [[Hne Hall]%andb_true_iff Hhash]%andb_true_iff.
  destruct k as [|a k']; [done|]. exists a, k'. split; [done|].
  rewrite startswith_cons in Hhash. apply negb_true_iff in Hhash.
  pose proof Hall as Hall'. cbn [Py.all_chars] in Hall'.
  apply andb_true_iff in Hall' as [Ha _]. apply negb_true_iff in Ha. done.
Qed.

(** The text of an entry that is not truncated: the line without its
    line feed. *)
Lemma render_entry_plain max k c :
  (Py.len c <= max - 2)%Z ->
  render_entry max k c
  = ((if String.eqb c "" then k else k ++ String " " ("# " ++ c))
     ++ String Py.LF "")%string.
Proof.
  intros Hlen. unfold render_entry. destruct (String.eqb c ""); [done|].
  destruct (Z.ltb_spec (max - 2) (Py.len c)); [lia|].
  cbv zeta. change (" " ++ ?x)%string with (String " " x).
  by rewrite !append_assoc.
Qed.

(** One written line read back. *)
Lemma load_line_rendered max d k c :
  plain_key k = true -> plain_comment c = true -> (Py.len c <= max - 2)%Z ->
  load_line d (render_entry max k c) = dict_set k (Py.strip c) d.
Proof.
  intros (a & k' & Hk & Ha & Hhash & Hall)%plain_key_inv Hc Hlen.
  apply andb_true_iff in Hc as [_ Hc]. apply negb_true_iff in Hc.
  assert (Py.contains " " k = false) as Hsp
    by (by apply (all_chars_contains _ _ _ Hall)).
  rewrite render_entry_plain by done. unfold load_line, Py.split1.
  assert (forall rest,
            negb (String.eqb (Py.strip (k ++ rest)) "")
            && negb (Py.startswith "#" (k ++ rest)) = true) as Hcond.
  { intros rest. rewrite Hk. cbn [String.append]. rewrite startswith_cons, Hhash.
    rewrite andb_true_r. apply negb_true_iff, String.eqb_neq.
    by apply strip_nonempty. }
  destruct (String.eqb_spec c "") as [->|Hne].
  - rewrite Hcond, partition_None.
    + cbn [hd]. by rewrite strip_app_LF, strip_plain.
    + rewrite contains_append, Hsp. done.
  - replace ((k ++ String " " ("# " ++ c)) ++ String Py.LF "")%string
      with (k ++ String " " ("# " ++ c ++ String Py.LF ""))%string
      by (rewrite !append_assoc; cbn [String.append]; by rewrite ?append_assoc).
    rewrite Hcond, partition_first by done. cbn [hd].
    by rewrite strip_plain, strip_comment.
Qed.

Lemma lines_keep_app (body rest : string) :
  Py.contains Py.LF body = false ->
  Py.lines_keep (body ++ String Py.LF rest)
  = (body ++ String Py.LF "")%string :: Py.lines_keep rest.
Proof.
  induction body as [|x body IH]; [done|]. cbn [Py.contains String.append].
  intros [Hx Hbody]%orb_false_elim. cbn [Py.lines_keep].
  by rewrite Hx, IH.
Qed.

Lemma universal_newlines_id s :
  Py.contains Py.CR s = false -> Py.universal_newlines s = s.
Proof.
  induction s as [|x s IH]; [done|]. cbn [Py.contains Py.universal_newlines].
  intros [Hx Hs]%orb_false_elim. by rewrite Hx, IH.
Qed.

Lemma plain_entry_chars k c x :
  plain_key k = true -> plain_comment c = true -> x = Py.LF \/ x = Py.CR ->
  Py.contains x (if String.eqb c "" then k else k ++ String " " ("# " ++ c))%string
  = false.
Proof.
  intros (a & k' & _ & _ & _ & Hall)%plain_key_inv Hc Hx.
  apply andb_true_iff in Hc as [Hc _].
  assert (Py.contains x k = false) as Hk.
  { apply (all_chars_contains _ _ _ Hall). by destruct Hx as [->| ->]. }
  assert (Py.contains x c = false) as Hxc.
  { apply (all_chars_contains _ _ _ Hc). by destruct Hx as [->| ->]. }
  destruct (String.eqb c ""); [done|].
  rewrite contains_append, Hk. cbn [Py.contains orb String.append]. rewrite Hxc.
  by destruct Hx as [->| ->].
Qed.

Lemma render_entries_CR max entries :
  Forall (fun item : string * string =>
            plain_key item.1 = true /\ plain_comment item.2 = true
            /\ (Py.len item.2 <= max - 2)%Z) entries ->
  Py.contains Py.CR (render_entries max entries) = false.
Proof.
  induction 1 as [|[k c] entries (Hk & Hc & Hlen) _ IH]; [done|].
  cbn [render_entries fst snd]. rewrite render_entry_plain by done.
  rewrite !contains_append, IH, plain_entry_chars by auto. done.
Qed.

Lemma lines_keep_rendered max entries :
  Forall (fun item : string * string =>
            plain_key item.1 = true /\ plain_comment item.2 = true
            /\ (Py.len item.2 <= max - 2)%Z) entries ->
  Py.lines_keep (render_entries max entries)
  = (fun item => render_entry max item.1 item.2) <$> entries.
Proof.
  induction 1 as [|[k c] entries (Hk & Hc & Hlen) _ IH]; [done|].
  cbn [render_entries fst snd fmap list_fmap]. rewrite render_entry_plain by done.
  rewrite append_assoc. cbn [String.append].
  rewrite lines_keep_app by (apply plain_entry_chars; auto). by rewrite IH.
Qed.

Lemma load_lines_rendered max entries d :
  Forall (fun item : string * string =>
            plain_key item.1 = true /\ plain_comment item.2 = true
            /\ (Py.len item.2 <= max - 2)%Z) entries ->
  fold_left load_line ((fun item => render_entry max item.1 item.2) <$> entries) d
  = fold_left (fun d kv => dict_set kv.1 kv.2 d)
      (prod_map id Py.strip <$> entries) d.
Proof.
  intros H. revert d. induction H as [|[k c] entries (Hk & Hc & Hlen) _ IH];
    intros d; [done|].
  cbn [fmap list_fmap fold_left fst snd prod_map id].
  by rewrite load_line_rendered, IH.
Qed.

Lemma load_existing_run path w content :
  files w !! path = Some content ->
  load_existing_output_file_entries path w
  = (Ok (fold_left load_line (Py.file_lines content) []),
     logged (LoadedEntries
               (length (fold_left load_line (Py.file_lines content) [])) path)
       w).
Proof.
  intros H. unfold load_existing_output_file_entries, mbind, M_bind, read_file.
  by rewrite H.
Qed.

(** C8, as the code has it.  For a mapping with plain keys and plain
    comments that are short enough not to be truncated, what
    [write_to_output_file] writes is read back by
    [load_existing_output_file_entries] as the same keys in the same order,
    each with its comment stripped of the white space around it. *)
Theorem write_then_load (entries : dict string) (path : string)
    (config : config) (w : world) :
  NoDup (dict_keys entries) ->
  Forall (fun item : string * string =>
            plain_key item.1 = true /\ plain_comment item.2 = true
            /\ (Py.len item.2 <= fg_max_comment_length config - 2)%Z)
    entries ->
  (Z.of_nat (length entries) <= fg_max_entries config)%Z ->
  path ∉ unwritable w ->
  exists ok w',
    write_to_output_file entries path config w = (Ok ok, w')
    /\ (load_existing_output_file_entries path w').1
       = Ok (prod_map id Py.strip <$> entries).
Proof.
  intros Hnd Hplain Hcount Hpath.
  assert (exists ok w',
            write_to_output_file entries path config w = (Ok ok, w')
            /\ files w' !! path
               = Some (render_entries (fg_max_comment_length config) entries))
    as (ok & w' & Hrun & Hfile).
  { rewrite write_to_output_file_run.
    destruct (Z.ltb_spec (fg_max_entries config) (Z.of_nat (length entries)));
      [lia|].
    rewrite decide_False by done. cbv zeta.
    destruct (_ <? _)%Z; eexists _, _; (split; [done|]);
      unfold logged, logging; cbn [snd files]; apply written_lookup. }
  exists ok, w'. split; [done|].
  rewrite (load_existing_run _ _ _ Hfile). cbn [fst]. f_equal.
  unfold Py.file_lines.
  rewrite universal_newlines_id by (by apply render_entries_CR).
  rewrite lines_keep_rendered, load_lines_rendered by done.
  apply (dict_of_items_NoDup (prod_map id Py.strip <$> entries)).
  unfold dict_keys in *. rewrite <- list_fmap_compose.
  by replace (fst ∘ prod_map id Py.strip) with (@fst string string).
Qed.


(** Two entries written and read back. *)
Lemma write_then_load_example :
  exists ok w',
    write_to_output_file
      [("10.0.0.0/24", "US | None | Example ISP"); ("10.0.0.1/32", "")]
      example_output example_config example_world = (Ok ok, w')
    /\ (load_existing_output_file_entries example_output w').1
       = Ok [("10.0.0.0/24", "US | None | Example ISP"); ("10.0.0.1/32", "")].
Proof.
  destruct (write_then_load
              [("10.0.0.0/24", "US | None | Example ISP"); ("10.0.0.1/32", "")]
              example_output example_config example_world)
    as (ok & w' & Hrun & Hload).
  - by_decide.
  - repeat (constructor;
            [split_and!; [vm_compute; reflexivity.. | vm_compute; discriminate]|]).
    constructor.
  - vm_compute. discriminate.
  - apply not_elem_of_empty.
  - exists ok, w'. split; [exact Hrun | exact Hload].
Defined.

(** C8 as stated fails.  A comment that starts with [#] is read back
    without it, and a comment of forty characters, the configured length,
    is written truncated. *)
Lemma write_then_load_changes_comment :
  (exists w',
     write_to_output_file [("1.2.3.4/32", "#1 Hosting")]
       example_output example_config example_world = (Ok true, w')
     /\ (load_existing_output_file_entries example_output w').1
        = Ok [("1.2.3.4/32", "1 Hosting")])
  /\ (exists w',
        Py.len "United States | California | Example ISP"
        = fg_max_comment_length example_config
        /\ write_to_output_file
             [("1.2.3.4/32", "United States | California | Example ISP")]
             example_output example_config example_world = (Ok true, w')
        /\ (load_existing_output_file_entries example_output w').1
           = Ok [("1.2.3.4/32", "United States | California | Exampl...")]).
Proof.
  split.
  - eexists. split; vm_compute; reflexivity.
  - eexists. split; [|split]; vm_compute; reflexivity.
Qed.

(** ** The run as a whole *)

(** C4 fails on the code.  [validate_ip_addresses] checks only the text
    before the slash, so the line 1.2.3.4/99 is accepted without a warning;
    [ip_network] then raises [ValueError] in [group_ips_into_subnets],
    nothing catches it, and the run ends there: no output file is written
    and the second input file is never read. *)
Theorem bad_prefix_aborts_run :
  validate_ip_addresses ["1.2.3.4/99"] empty_world
  = (Ok ["1.2.3.4/99"], logged (ValidatedAddresses 1 0) empty_world)
  /\ group_ips_into_subnets ["1.2.3.4/99"] 3 empty_world
     = (Raise ValueError, empty_world)
  /\ let run :=
       main two_files_config
         (run_world ["1.2.3.4/99"] ["1.2.3.1"] answering_registry) in
     run.1 = Raise ValueError
     /\ log run.2
        = [ChangesDetected; PulledLatest; LoadedLines 1 "/repo/list.txt";
           RemovedDuplicates 1 1; ValidatedAddresses 1 0]
     /\ files run.2 !! "/repo/output/blocklist-industrial.txt" = None
     /\ files run.2 !! "/repo/output/blocklist-industrial-manual.txt" = None.
Proof. cbv zeta. split_and!; vm_compute; reflexivity. Qed.

(** C5 fails on the code.  When the registry request for a new entry
    raises, [fetch_whois_info] logs the error and leaves the entry out of
    the dictionary it returns; [process_lists] then writes an output file
    without the entry, and still counts it as added. *)
Theorem failed_lookup_drops_entry :
  (fetch_whois_info ["1.2.3.4/32"] [] empty_world).1 = Ok []
  /\ log (fetch_whois_info ["1.2.3.4/32"] [] empty_world).2
     = [StartFetchingWhois; ErrorProcessing "1.2.3.4/32"; WhoisProcessed]
  /\ let run :=
       process_lists "/repo/list.txt" "/repo/output/blocklist-industrial.txt"
         two_files_config (run_world ["1.2.3.4"] [] (fun _ => None)) in
     run.1 = Ok (true, 1%nat, 0%nat)
     /\ files run.2 !! "/repo/output/blocklist-industrial.txt" = Some "".
Proof. cbv zeta. split_and!; vm_compute; reflexivity. Qed.

(** C6 fails on the code.  A plain IPv6 address passes
    [validate_ip_addresses], gets the suffix /32 like an IPv4 address and
    leaves [group_ips_into_subnets] as the /32 network around it; two
    addresses of that network come out as one entry; and from a threshold
    of one on the entry is grouped into a text that is no network at
    all. *)
Theorem ipv6_host_is_rewritten :
  (validate_ip_addresses ["2001:db8::1"] empty_world).1 = Ok ["2001:db8::1"]
  /\ (group_ips_into_subnets ["2001:db8::1"] 3 empty_world).1
     = Ok ["2001:db8::/32"]
  /\ (group_ips_into_subnets ["2001:db8::1"; "2001:db8::2"] 3 empty_world).1
     = Ok ["2001:db8::/32"]
  /\ (group_ips_into_subnets ["2001:db8::1"] 1 empty_world).1
     = Ok ["2001:db8::.0/24"]
  /\ ip_network "2001:db8::.0/24" = Raise ValueError.
Proof. cbv zeta. split_and!; vm_compute; reflexivity. Qed.

(** C9 fails on the code.  [processed] holds the result of the last file
    only: the output of [list.txt] has three entries and is refused, the
    run goes on to [manual.txt], whose output is accepted, and
    [commit_and_push_changes] is called. *)
Theorem failed_validation_still_publishes :
  let run :=
    main two_files_config
      (run_world ["1.2.3.1"; "9.9.9.9"; "8.8.8.0/24"] ["1.2.3.1"]
         answering_registry) in
  run.1 = Ok tt
  /\ log run.2
     = [ChangesDetected; PulledLatest; LoadedLines 3 "/repo/list.txt";
        RemovedDuplicates 3 3; ValidatedAddresses 3 0; GroupedIntoSubnets 3;
        NoExistingOutputFile "/repo/output/blocklist-industrial.txt";
        StartFetchingWhois; WhoisProcessed; SortedSubnets 3;
        EntriesExceedLimit 2; LoadedLines 1 "/repo/manual.txt";
        RemovedDuplicates 1 1; ValidatedAddresses 1 0; GroupedIntoSubnets 1;
        NoExistingOutputFile "/repo/output/blocklist-industrial-manual.txt";
        StartFetchingWhois; WhoisProcessed; SortedSubnets 1;
        OutputWritten "/repo/output/blocklist-industrial-manual.txt" 37;
        CommittedAndPushed; Stats 4 0]
  /\ git_calls run.2
     = [Fetch; Pull; AddUpdate; Commit "Update validated blocklists"; Push].
Proof. cbv zeta. split_and!; vm_compute; reflexivity. Qed.

(** * Further properties of the functions *)

(** ** [remove_duplicates] *)

Lemma str_lt_le (x y : string) :
  exists b : bool,
    str_lt y x = Ok b /\ if b then String.le y x else String.le x y.
Proof.
  unfold str_lt, String.le, String.ltb, String.leb. eexists. split; [done|].
  rewrite (String.compare_antisym y x).
  destruct (String.compare x y); done.
Qed.

Lemma sorted_strings (l : list string) :
  exists s, sorted str_lt l = Ok s /\ StronglySorted String.le s /\ s ≡ₚ l.
Proof.
  destruct (sorted_ok str_lt String.le (fun _ => True)) with (l := l)
    as (s & Hs & Hsorted).
  - intros x y z. apply transitivity.
  - intros x y _ _. apply str_lt_le.
  - by apply Forall_true.
  - exists s. split_and!; [done..|]. by apply sorted_perm in Hs.
Qed.

Lemma remove_duplicates_run addresses w :
  exists out,
    remove_duplicates addresses w
    = (Ok out, logged (RemovedDuplicates (length addresses) (length out)) w)
    /\ StronglySorted String.le out
    /\ out ≡ₚ elements (list_to_set addresses : gset string).
Proof.
  destruct (sorted_strings (elements (list_to_set addresses : gset string)))
    as (s & Hs & Hsorted & Hperm).
  exists s. split; [|done].
  unfold remove_duplicates, mbind, M_bind, lift. by rewrite Hs.
Qed.

(** X1.  [remove_duplicates] never raises; the list it returns has no
    repeated value, is in ascending order of the strings, and holds
    exactly the values of the input. *)
Theorem remove_duplicates_sorted_set (addresses : list string) (w : world) :
  exists out,
    remove_duplicates addresses w
    = (Ok out, logged (RemovedDuplicates (length addresses) (length out)) w)
    /\ NoDup out
    /\ StronglySorted String.le out
    /\ forall a, a ∈ out <-> a ∈ addresses.
Proof.
  destruct (remove_duplicates_run addresses w) as (out & Hrun & Hsorted & Hperm).
  exists out. split_and!; [done| |done|].
  - rewrite Hperm. apply NoDup_elements.
  - intros a. rewrite Hperm, elem_of_elements. apply elem_of_list_to_set.
Qed.

(** X2.  The result of [remove_duplicates] depends on the values of the
    input only, not on their order or on how often they occur: two lists
    with the same members give the same list. *)
Theorem remove_duplicates_set_determined (l1 l2 : list string) (w1 w2 : world) :
  (forall a, a ∈ l1 <-> a ∈ l2) ->
  (remove_duplicates l1 w1).1 = (remove_duplicates l2 w2).1.
Proof.
  intros Hmem.
  destruct (remove_duplicates_run l1 w1) as (o1 & -> & Hs1 & Hp1).
  destruct (remove_duplicates_run l2 w2) as (o2 & -> & Hs2 & Hp2).
  cbn [fst]. f_equal. apply (stdpp.sorting.StronglySorted_unique String.le); [done..|].
  rewrite Hp1, Hp2.
  replace (list_to_set l1 : gset string) with (list_to_set l2 : gset string);
    [done|].
  apply set_eq. intros a. rewrite !elem_of_list_to_set. by rewrite Hmem.
Qed.

Lemma remove_duplicates_set_determined_example :
  (remove_duplicates ["b"; "a"; "b"; "10"; "9"] empty_world).1
  = (remove_duplicates ["9"; "10"; "a"; "b"] example_world).1.
Proof.
  apply remove_duplicates_set_determined. intros a. split; intros H.
  - repeat (apply elem_of_cons in H as [->|H]; [in_list|]).
    by apply elem_of_nil in H.
  - repeat (apply elem_of_cons in H as [->|H]; [in_list|]).
    by apply elem_of_nil in H.
Defined.

(** ** [validate_ip_addresses] *)

Lemma ip_address_raises address_str e :
  ip_address address_str = Raise e -> e = ValueError.
Proof.
  unfold ip_address. destruct (parse_IPv4Address _); [done|].
  destruct (parse_IPv6Address _); [done|]. by intros [= <-].
Qed.

Lemma validate_loop addresses valid_ips w :
  for_each addresses
    (fun valid_ips ip =>
       match ip_address (hd "" (Py.split "/" ip)) with
       | Ok _ => mret (valid_ips ++ [ip])
       | Raise ValueError => logging (NotAValidIP ip);; mret valid_ips
       | Raise e => raise e
       end) valid_ips w
  = (Ok (valid_ips ++ List.filter valid_ip addresses),
     logged_all
       (NotAValidIP <$> List.filter (fun ip => negb (valid_ip ip)) addresses) w).
Proof.
  revert valid_ips w. induction addresses as [|ip addresses IH]; intros acc w.
  - cbn. by rewrite app_nil_r.
  - cbn [for_each List.filter]. unfold mbind, M_bind at 1.
    destruct (valid_ip ip) eqn:Hv; unfold valid_ip in Hv;
      destruct (ip_address _) as [a|e] eqn:Hip; try discriminate; cbn [negb].
    + unfold mret, M_ret at 1. rewrite IH. by rewrite <- app_assoc.
    + apply ip_address_raises in Hip as ->. cbn [fmap list_fmap].
      unfold mbind, M_bind at 1. cbn [logging mret M_ret].
      rewrite IH. done.
Qed.

(** X3.  [validate_ip_addresses] never raises.  It returns, in the order
    of the input, exactly the entries whose text before the first slash is
    an IPv4 or IPv6 address; it logs one warning for every other entry, in
    order, and then the line with the two counts. *)
Theorem validate_ip_addresses_filter (addresses : list string) (w : world) :
  validate_ip_addresses addresses w
  = (Ok (List.filter valid_ip addresses),
     logged
       (ValidatedAddresses (length (List.filter valid_ip addresses))
          (length addresses - length (List.filter valid_ip addresses)))
       (logged_all
          (NotAValidIP <$> List.filter (fun ip => negb (valid_ip ip)) addresses)
          w)).
Proof.
  unfold validate_ip_addresses, mbind, M_bind at 1. by rewrite validate_loop.
Qed.

(** ** [group_ips_into_subnets], in full *)

Lemma ip_network_raises s e : ip_network s = Raise e -> e = ValueError.
Proof.
  unfold ip_network. destruct (parse_IPv4Network s); [done|].
  destruct (parse_IPv6Network s); [done|]. by intros [= <-].
Qed.

(** Either every entry parses, or one of them makes [ip_network] raise. *)
Lemma parses_or_raises addresses :
  Forall (fun e => exists n, parses e n) addresses
  \/ Exists (fun e => ip_network (with_default_prefix e) = Raise ValueError)
       addresses.
Proof.
  induction addresses as [|a addresses [IH|IH]].
  - left. constructor.
  - destruct (ip_network (with_default_prefix a)) as [n|e] eqn:Ha.
    + left. constructor; [by exists n | done].
    + right. left. by rewrite (ip_network_raises _ _ Ha) in Ha.
  - right. by right.
Qed.

Lemma group_of_perm K nets nets' :
  nets ≡ₚ nets' -> group_of K nets ≡ₚ group_of K nets'.
Proof.
  unfold group_of. induction 1 as [|x l l' _ IH|x y l|l l' l'' _ IH1 _ IH2];
    cbn [List.filter].
  - done.
  - destruct (_ && _); [by constructor | done].
  - destruct (is_host x && _), (is_host y && _); try done. apply perm_swap.
  - by etrans.
Qed.

Lemma aggregated_perm threshold K nets nets' :
  nets ≡ₚ nets' -> aggregated threshold K nets -> aggregated threshold K nets'.
Proof.
  intros Hp (Hc & Hne & Hlen). pose proof (group_of_perm K _ _ Hp) as Hg.
  split_and!.
  - intros (s & Hs & ?). apply Hc. exists s. by rewrite Hp.
  - intros Hnil. rewrite Hnil in Hg. by apply Permutation_nil_r in Hg.
  - by rewrite <- Hg.
Qed.

Lemma aggregated_or_not threshold K nets :
  aggregated threshold K nets \/ ~ aggregated threshold K nets.
Proof.
  unfold aggregated, covered.
  destruct (decide (Exists (fun s => is_host s = false
                                     /\ first_three_octets s = K) nets))
    as [Hc|Hc]; rewrite Exists_exists in Hc; [right; naive_solver|].
  destruct (decide (group_of K nets = [])); [right; naive_solver|].
  destruct (decide (threshold <= Z.of_nat (length (group_of K nets)))%Z);
    [left | right]; naive_solver.
Qed.

Lemma grouped_result_perm nets nets' threshold :
  nets ≡ₚ nets' ->
  grouped_result (fold_left classify_network nets (Grouping [] ∅ ∅)) threshold
  = grouped_result (fold_left classify_network nets' (Grouping [] ∅ ∅)) threshold.
Proof.
  intros Hp. apply set_eq. intros s. rewrite !grouped_result_elem.
  assert (forall K, aggregated threshold K nets <-> aggregated threshold K nets')
    as Hagg by (intros K; split; by apply aggregated_perm).
  setoid_rewrite Hagg. by setoid_rewrite Hp.
Qed.

(** X4.  When every entry parses, [group_ips_into_subnets] returns, logs
    the number of entries it returns, and returns without repetition
    exactly: the /24 of every aggregated key, every explicit subnet, and
    every host whose key is not aggregated.  A key is aggregated when no
    explicit subnet has it and at least [threshold] hosts, and at least
    one, have it. *)
Theorem group_ips_into_subnets_members (addresses : list string)
    (nets : list network) (threshold : Z) (w : world) :
  Forall2 parses addresses nets ->
  exists out,
    group_ips_into_subnets addresses threshold w
    = (Ok out, logged (GroupedIntoSubnets (length out)) w)
    /\ NoDup out
    /\ forall s,
         s ∈ out <->
         (exists K, aggregated threshold K nets /\ s = (K ++ ".0/24")%string)
         \/ (exists n, n ∈ nets /\ is_host n = false /\ s = str_network n)
         \/ (exists n, n ∈ nets /\ is_host n = true
                       /\ ~ aggregated threshold (first_three_octets n) nets
                       /\ s = str_network n).
Proof.
  intros Hparse.
  pose proof (classify_all _ _ (Grouping [] ∅ ∅) Hparse) as Hrun.
  eexists. split; [exact (group_run _ threshold w _ Hrun)|].
  split; [apply NoDup_elements|].
  intros s. rewrite elem_of_elements. apply grouped_result_elem.
Qed.

(** Two hosts of 1.2.3.0/24, a host of 5.6.7.0/24 and the subnet
    10.0.0.0/8, with a threshold of two. *)
Lemma group_ips_into_subnets_members_example :
  exists out,
    group_ips_into_subnets ["1.2.3.1"; "1.2.3.2"; "5.6.7.8"; "10.0.0.0/8"] 2
      empty_world
    = (Ok out, logged (GroupedIntoSubnets (length out)) empty_world)
    /\ NoDup out
    /\ forall s,
         s ∈ out <->
         (exists K,
            aggregated 2 K
              [Network (IPv4Address 16909057) 32; Network (IPv4Address 16909058) 32;
               Network (IPv4Address 84281096) 32; Network (IPv4Address 167772160) 8]
            /\ s = (K ++ ".0/24")%string)
         \/ (exists n,
               n ∈ [Network (IPv4Address 16909057) 32;
                    Network (IPv4Address 16909058) 32;
                    Network (IPv4Address 84281096) 32;
                    Network (IPv4Address 167772160) 8]
               /\ is_host n = false /\ s = str_network n)
         \/ (exists n,
               n ∈ [Network (IPv4Address 16909057) 32;
                    Network (IPv4Address 16909058) 32;
                    Network (IPv4Address 84281096) 32;
                    Network (IPv4Address 167772160) 8]
               /\ is_host n = true
               /\ ~ aggregated 2 (first_three_octets n)
                      [Network (IPv4Address 16909057) 32;
                       Network (IPv4Address 16909058) 32;
                       Network (IPv4Address 84281096) 32;
                       Network (IPv4Address 167772160) 8]
               /\ s = str_network n).
Proof.
  apply (group_ips_into_subnets_members
           ["1.2.3.1"; "1.2.3.2"; "5.6.7.8"; "10.0.0.0/8"]).
  repeat (constructor; [vm_compute; reflexivity|]). constructor.
Defined.

(** X5.  [group_ips_into_subnets] has two outcomes.  When every entry
    parses it returns and logs.  When [ip_network] refuses an entry it
    raises [ValueError], and nothing is logged. *)
Theorem group_ips_into_subnets_outcome (addresses : list string)
    (threshold : Z) (w : world) :
  (Forall (fun e => exists n, parses e n) addresses
   /\ exists out,
        group_ips_into_subnets addresses threshold w
        = (Ok out, logged (GroupedIntoSubnets (length out)) w))
  \/ (Exists (fun e => ip_network (with_default_prefix e) = Raise ValueError)
        addresses
      /\ group_ips_into_subnets addresses threshold w = (Raise ValueError, w)).
Proof.
  destruct (parses_or_raises addresses) as [Hall|Hex].
  - left. split; [done|]. apply parses_all in Hall as [nets Hparse].
    pose proof (classify_all _ _ (Grouping [] ∅ ∅) Hparse) as Hrun.
    eexists. exact (group_run _ threshold w _ Hrun).
  - right. split; [done|]. apply Exists_exists in Hex as (e & Hin & He).
    by apply (group_raises_on_unparsable _ _ _ e).
Qed.

(** X6.  No entry is lost: when every entry parses, every network of the
    input is in the output as itself, or is a host and the /24 of its key
    is in the output.  For an IPv4 host that /24 is the network that
    holds it. *)
Theorem group_ips_into_subnets_covers (addresses : list string)
    (nets : list network) (threshold : Z) (w : world) :
  Forall2 parses addresses nets ->
  exists out,
    (group_ips_into_subnets addresses threshold w).1 = Ok out
    /\ (forall n, n ∈ nets ->
          str_network n ∈ out
          \/ (is_host n = true
              /\ (first_three_octets n ++ ".0/24")%string ∈ out))
    /\ (forall ip, Network (IPv4Address ip) 32 ∈ nets ->
          str_network (Network (IPv4Address ip) 32) ∈ out
          \/ str_network (Network (IPv4Address (ip / 256 * 256)) 24) ∈ out).
Proof.
  intros Hparse.
  pose proof (classify_all _ _ (Grouping [] ∅ ∅) Hparse) as Hrun.
  eexists. rewrite (group_run _ threshold w _ Hrun). split; [done|].
  assert (forall n, n ∈ nets ->
            str_network n
              ∈ elements (grouped_result
                            (fold_left classify_network nets (Grouping [] ∅ ∅))
                            threshold)
            \/ (is_host n = true
                /\ (first_three_octets n ++ ".0/24")%string
                     ∈ elements (grouped_result
                                   (fold_left classify_network nets
                                      (Grouping [] ∅ ∅)) threshold))) as Hcov.
  { intros n Hn. rewrite !elem_of_elements, !grouped_result_elem.
    destruct (is_host n) eqn:Hh.
    - destruct (aggregated_or_not threshold (first_three_octets n) nets)
        as [Hagg|Hagg].
      + right. split; [done|]. left. eauto.
      + left. right. right. exists n. done.
    - left. right. left. by exists n. }
  split; [exact Hcov|].
  intros ip Hn. destruct (Hcov _ Hn) as [?|[_ H24]]; [by left|right].
  by rewrite str_network_24, <- (first_three_octets_IPv4 ip 32).
Qed.

(** Three hosts of 1.2.3.0/24 and one of 5.6.7.0/24. *)
Lemma group_ips_into_subnets_covers_example :
  exists out,
    (group_ips_into_subnets ["1.2.3.1"; "1.2.3.2"; "1.2.3.3"; "5.6.7.8"] 3
       empty_world).1 = Ok out
    /\ (forall n,
          n ∈ [Network (IPv4Address 16909057) 32; Network (IPv4Address 16909058) 32;
               Network (IPv4Address 16909059) 32; Network (IPv4Address 84281096) 32] ->
          str_network n ∈ out
          \/ (is_host n = true
              /\ (first_three_octets n ++ ".0/24")%string ∈ out))
    /\ (forall ip,
          Network (IPv4Address ip) 32
            ∈ [Network (IPv4Address 16909057) 32; Network (IPv4Address 16909058) 32;
               Network (IPv4Address 16909059) 32; Network (IPv4Address 84281096) 32] ->
          str_network (Network (IPv4Address ip) 32) ∈ out
          \/ str_network (Network (IPv4Address (ip / 256 * 256)) 24) ∈ out).
Proof.
  apply (group_ips_into_subnets_covers
           ["1.2.3.1"; "1.2.3.2"; "1.2.3.3"; "5.6.7.8"]).
  repeat (constructor; [vm_compute; reflexivity|]). constructor.
Defined.

(** X7.  The order of the input does not matter: on a reordered input
    the call leaves the same world and has the same outcome, the same
    entries or the same exception. *)
Theorem group_ips_into_subnets_order_free (addresses addresses' : list string)
    (threshold : Z) (w : world) :
  addresses ≡ₚ addresses' ->
  (group_ips_into_subnets addresses threshold w).2
  = (group_ips_into_subnets addresses' threshold w).2
  /\ match (group_ips_into_subnets addresses threshold w).1,
           (group_ips_into_subnets addresses' threshold w).1 with
     | Ok out, Ok out' => out ≡ₚ out'
     | Raise e, Raise e' => e = e'
     | _, _ => False
     end.
Proof.
  intros Hp. destruct (parses_or_raises addresses) as [Hall|Hex].
  - apply parses_all in Hall as [nets Hparse].
    destruct (Permutation_Forall2 Hp Hparse) as (nets' & Hp' & Hparse').
    rewrite (group_run _ threshold w _ (classify_all _ _ _ Hparse)).
    rewrite (group_run _ threshold w _ (classify_all _ _ _ Hparse')).
    rewrite (grouped_result_perm _ _ threshold Hp'). cbn [fst snd]. done.
  - apply Exists_exists in Hex as (e & Hin & He).
    rewrite (group_raises_on_unparsable addresses _ _ e) by done.
    rewrite (group_raises_on_unparsable addresses' _ _ e); [done| |done].
    by rewrite <- Hp.
Qed.

Lemma group_ips_into_subnets_order_free_example :
  (group_ips_into_subnets ["1.2.3.1"; "10.0.0.0/8"; "1.2.3.2"] 2 empty_world).2
  = (group_ips_into_subnets ["10.0.0.0/8"; "1.2.3.2"; "1.2.3.1"] 2 empty_world).2
  /\ match (group_ips_into_subnets ["1.2.3.1"; "10.0.0.0/8"; "1.2.3.2"] 2
              empty_world).1,
           (group_ips_into_subnets ["10.0.0.0/8"; "1.2.3.2"; "1.2.3.1"] 2
              empty_world).1 with
     | Ok out, Ok out' => out ≡ₚ out'
     | Raise e, Raise e' => e = e'
     | _, _ => False
     end.
Proof.
  apply (group_ips_into_subnets_order_free
           ["1.2.3.1"; "10.0.0.0/8"; "1.2.3.2"] ["10.0.0.0/8"; "1.2.3.2"; "1.2.3.1"]).
  etrans; [apply perm_swap|]. apply perm_skip, perm_swap.
Defined.

(** ** [sort_entries_by_cidr] on ordered and on unreadable keys *)

(** A list on which the comparison finds no later element below an
    earlier one is returned as it is. *)
Lemma sorted_fixed {A} (lt : A -> A -> result bool) l :
  StronglySorted (fun x y => lt y x = Ok false) l -> sorted lt l = Ok l.
Proof.
  induction 1 as [|x l Hs IH Hx]; cbn [sorted]; [done|].
  rewrite IH. unfold mbind, result_bind, rbind. destruct l as [|y l]; [done|].
  cbn [insert_sorted]. apply Forall_cons in Hx as [Hy _].
  unfold mbind, result_bind, rbind. by rewrite Hy.
Qed.

Section sorted_by_key_fixed.
Context {A K : Type} (key : A -> result K) (lt : K -> K -> result bool).

Lemma sorted_by_key_fixed items :
  Forall (fun x => exists k, key x = Ok k) items ->
  StronglySorted
    (fun x y => forall kx ky, key x = Ok kx -> key y = Ok ky -> lt ky kx = Ok false)
    items ->
  sorted_by_key key lt items = Ok items.
Proof.
  intros Hkeys Hs. unfold sorted_by_key.
  destruct (keyed_loop_ok key items [] Hkeys) as [keyed Hkeyed].
  rewrite Hkeyed. apply keyed_loop in Hkeyed as (new & -> & Hnew & Hall).
  unfold mbind, result_bind, rbind. cbn [app].
  rewrite (sorted_fixed (fun a b : K * A => lt a.1 b.1)); [by rewrite Hnew|].
  subst items. clear Hkeys. induction new as [|[k x] new IH]; [constructor|].
  apply Forall_cons in Hall as [Hk Hall]. cbn [fmap list_fmap snd] in Hs.
  apply StronglySorted_inv in Hs as [Hs Hx].
  constructor; [by apply IH|].
  rewrite Forall_forall in Hx. rewrite Forall_forall in Hall.
  apply Forall_forall. intros [k' y] Hy.
  cbn [fst]. apply (Hx y).
  - by apply (list_elem_of_fmap_2 snd) in Hy.
  - exact Hk.
  - exact (Hall _ Hy).
Qed.

(** A key that cannot be computed makes the sort raise what the key
    raises, when no key raises anything else. *)
Lemma sorted_by_key_raises items x e :
  x ∈ items -> key x = Raise e ->
  Forall (fun y => forall e', key y = Raise e' -> e' = e) items ->
  sorted_by_key key lt items = Raise e.
Proof.
  intros Hin Hx Hall. unfold sorted_by_key.
  enough (forall acc,
            for_each_pure items (fun acc x => k ← key x; Ok (acc ++ [(k, x)])) acc
            = Raise e) as -> by done.
  induction items as [|y items IH]; intros acc.
  - by apply elem_of_nil in Hin.
  - apply Forall_cons in Hall as [Hy Hall]. cbn [for_each_pure].
    unfold mbind, result_bind, rbind. destruct (key y) as [k|e'] eqn:Hky.
    + apply elem_of_cons in Hin as [->|Hin]; [congruence|]. by apply IH.
    + by rewrite (Hy e' eq_refl).
Qed.
End sorted_by_key_fixed.

Lemma sort_key_Ok e k :
  sort_key e = Ok k <->
  exists n, ip_network e = Ok n /\ k = (prefixlen n, network_address n).
Proof.
  unfold sort_key, mbind, result_bind, rbind. destruct (ip_network e) as [n|].
  - split; [intros [= <-]; eauto | by intros (? & [= <-] & ->)].
  - split; [done | by intros (? & ? & _)].
Qed.

Lemma sort_key_raises e x : sort_key e = Raise x -> x = ValueError.
Proof.
  unfold sort_key, mbind, result_bind, rbind.
  destruct (ip_network e) as [n|x'] eqn:He; [done|].
  intros [= <-]. by apply ip_network_raises in He.
Qed.

(** Below in the order of the key means not above for the comparison. *)
Lemma key_le_not_lt (x y : N * address) :
  (x.1 = y.1 -> version x.2 = version y.2) ->
  key_le x y -> sort_key_lt y x = Ok false.
Proof.
  destruct x as [px ax], y as [py ay]. unfold key_le, sort_key_lt.
  cbn [fst snd]. intros Hv Hle. destruct (N.eqb_spec py px) as [->|Hne].
  - case_decide; [done|]. specialize (Hv eq_refl).
    destruct ax, ay; cbn in *; try congruence;
      f_equal; apply N.ltb_ge; lia.
  - f_equal. apply N.ltb_ge. lia.
Qed.

Lemma sortable_perm keys keys' : keys ≡ₚ keys' -> sortable keys -> sortable keys'.
Proof.
  intros Hp [Hparse Hvers]. split; [by rewrite <- Hp|].
  intros e1 e2 n1 n2 H1 H2. rewrite <- Hp in H1, H2. by apply Hvers.
Qed.

(** Entries already in the order of the key are returned as they are. *)
Lemma sort_entries_fixed (entries : dict string) :
  sortable (dict_keys entries) ->
  StronglySorted entry_le (dict_keys entries) ->
  sorted_by_key (fun item : string * string => sort_key item.1) sort_key_lt entries
  = Ok entries.
Proof.
  intros [Hparse Hvers] Hs. apply sorted_by_key_fixed.
  - rewrite Forall_forall in Hparse. apply Forall_forall. intros [e c] Hin.
    apply (list_elem_of_fmap_2 fst) in Hin. destruct (Hparse _ Hin) as [n Hn].
    eexists. apply sort_key_Ok. eauto.
  - enough (forall l : dict string,
              StronglySorted entry_le (dict_keys l) ->
              (forall e, e ∈ dict_keys l -> e ∈ dict_keys entries) ->
              StronglySorted
                (fun x y : string * string =>
                   forall kx ky, sort_key x.1 = Ok kx -> sort_key y.1 = Ok ky ->
                                 sort_key_lt ky kx = Ok false) l) as Haux
      by (by apply Haux).
    clear Hs. intros l. unfold dict_keys at 1 2.
    induction l as [|[e c] l IH]; intros Hs Hsub; [constructor|].
    rewrite fmap_cons in Hs, Hsub. cbn [fst] in Hs, Hsub.
    apply StronglySorted_inv in Hs as [Hs He].
    constructor.
    + apply IH; [done|]. intros e' He'. apply Hsub. by right.
    + rewrite Forall_forall in He. apply Forall_forall. intros [e' c'] Hin.
      apply (list_elem_of_fmap_2 fst) in Hin. cbn [fst] in *.
      intros kx ky Hkx Hky.
      destruct (He _ Hin) as (k1 & k2 & Hk1 & Hk2 & Hle).
      rewrite Hkx in Hk1. rewrite Hky in Hk2.
      injection Hk1 as <-. injection Hk2 as <-.
      apply key_le_not_lt; [|done].
      apply sort_key_Ok in Hkx as (n1 & Hn1 & ->).
      apply sort_key_Ok in Hky as (n2 & Hn2 & ->). cbn [fst snd].
      apply (Hvers e e'); [apply Hsub; left | apply Hsub; by right | done..].
Qed.

(** X8.  A mapping whose keys are in the order of the key is returned as
    it is; so sorting what [sort_entries_by_cidr] returned returns it
    again. *)
Theorem sort_entries_by_cidr_idempotent (entries : dict string) (w : world) :
  NoDup (dict_keys entries) ->
  sortable (dict_keys entries) ->
  (StronglySorted entry_le (dict_keys entries) ->
   sort_entries_by_cidr entries w
   = (Ok entries, logged (SortedSubnets (length entries)) w))
  /\ exists out,
       (sort_entries_by_cidr entries w).1 = Ok out
       /\ forall w',
            sort_entries_by_cidr out w'
            = (Ok out, logged (SortedSubnets (length out)) w').
Proof.
  intros Hnd Hkeys.
  assert (forall d w0, NoDup (dict_keys d) -> sortable (dict_keys d) ->
            StronglySorted entry_le (dict_keys d) ->
            sort_entries_by_cidr d w0
            = (Ok d, logged (SortedSubnets (length d)) w0)) as Hfixed.
  { intros d w0 Hd Hk Hs.
    rewrite (sort_entries_by_cidr_run _ _ _ (sort_entries_fixed d Hk Hs)).
    by rewrite dict_of_items_NoDup. }
  split; [by apply Hfixed|].
  destruct (sort_entries_sorted entries Hnd Hkeys)
    as (out & Hout & Hdict & Hperm & Hsorted).
  exists out. rewrite (sort_entries_by_cidr_run _ _ _ Hout), Hdict.
  split; [done|]. intros w'.
  assert (dict_keys out ≡ₚ dict_keys entries) as Hpk
    by (unfold dict_keys; by rewrite Hperm).
  apply Hfixed; [by rewrite Hpk | | done].
  eapply sortable_perm; [symmetry; exact Hpk | done].
Qed.

(** A host and two subnets, out of order. *)
Lemma sort_entries_by_cidr_idempotent_example :
  (StronglySorted entry_le
     (dict_keys [("10.0.0.1/32", "b"); ("10.0.1.0/24", "c"); ("10.0.0.0/24", "a")]) ->
   sort_entries_by_cidr
     [("10.0.0.1/32", "b"); ("10.0.1.0/24", "c"); ("10.0.0.0/24", "a")] empty_world
   = (Ok [("10.0.0.1/32", "b"); ("10.0.1.0/24", "c"); ("10.0.0.0/24", "a")],
      logged (SortedSubnets 3) empty_world))
  /\ exists out,
       (sort_entries_by_cidr
          [("10.0.0.1/32", "b"); ("10.0.1.0/24", "c"); ("10.0.0.0/24", "a")]
          empty_world).1 = Ok out
       /\ forall w',
            sort_entries_by_cidr out w'
            = (Ok out, logged (SortedSubnets (length out)) w').
Proof.
  apply (sort_entries_by_cidr_idempotent
           [("10.0.0.1/32", "b"); ("10.0.1.0/24", "c"); ("10.0.0.0/24", "a")]).
  - by_decide.
  - apply (sortable_one_version _ V4).
    repeat (constructor; [eexists; split; vm_compute; reflexivity|]). constructor.
Defined.

(** X9.  A key that [ip_network] refuses makes [sort_entries_by_cidr]
    raise [ValueError]; nothing is logged. *)
Theorem sort_entries_by_cidr_unparsable (entries : dict string) (k : string)
    (w : world) :
  k ∈ dict_keys entries -> ip_network k = Raise ValueError ->
  sort_entries_by_cidr entries w = (Raise ValueError, w).
Proof.
  intros Hin Hk. unfold sort_entries_by_cidr, mbind, M_bind, lift.
  apply list_elem_of_fmap in Hin as ([k' c] & -> & Hin).
  rewrite (sorted_by_key_raises _ _ entries (k', c) ValueError); [done..| |].
  - unfold sort_key, mbind, result_bind, rbind. cbn [fst] in *. by rewrite Hk.
  - apply Forall_forall. intros y _ e'. apply sort_key_raises.
Qed.

(** The /24 that [group_ips_into_subnets] makes of an IPv6 key. *)
Lemma sort_entries_by_cidr_unparsable_example :
  sort_entries_by_cidr [("10.0.0.0/24", "a"); ("2001:db8::.0/24", "")] empty_world
  = (Raise ValueError, empty_world).
Proof.
  apply (sort_entries_by_cidr_unparsable _ "2001:db8::.0/24").
  - in_list.
  - vm_compute. reflexivity.
Defined.

(** ** Reading the input and the output file *)

Lemma lstrip_idem p s : Py.lstrip p (Py.lstrip p s) = Py.lstrip p s.
Proof.
  induction s as [|a s IH]; cbn [Py.lstrip]; [done|].
  destruct (p a) eqn:Ha; [done|]. cbn [Py.lstrip]. by rewrite Ha.
Qed.

Lemma rstrip_idem p s : Py.rstrip p (Py.rstrip p s) = Py.rstrip p s.
Proof.
  induction s as [|a s IH]; cbn [Py.rstrip]; [done|].
  destruct (Py.rstrip p s) as [|b r] eqn:Hr.
  - destruct (p a) eqn:Ha; [done|]. cbn [Py.rstrip]. by rewrite Ha.
  - cbn [Py.rstrip] in *. by rewrite IH.
Qed.

(** What [rstrip] leaves of a text that starts with a character it keeps
    starts with that character. *)
Lemma lstrip_rstrip p s :
  Py.lstrip p (Py.rstrip p (Py.lstrip p s)) = Py.rstrip p (Py.lstrip p s).
Proof.
  induction s as [|a s IH]; cbn [Py.lstrip]; [done|].
  destruct (p a) eqn:Ha; [done|]. cbn [Py.rstrip].
  destruct (Py.rstrip p s); [rewrite Ha|]; cbn [Py.lstrip]; by rewrite Ha.
Qed.

Lemma strip_idem s : Py.strip (Py.strip s) = Py.strip s.
Proof. unfold Py.strip. by rewrite lstrip_rstrip, rstrip_idem. Qed.

Lemma strip_chars_idem chars s :
  Py.strip_chars chars (Py.strip_chars chars s) = Py.strip_chars chars s.
Proof. unfold Py.strip_chars. by rewrite lstrip_rstrip, rstrip_idem. Qed.

(** X10.  [load_input_file_entries] returns one entry for each line of
    the file, with no white space left at either end, and logs their
    number; on a missing file it logs the error and ends the program with
    [exit(1)].  Nothing else of the world changes. *)
Theorem load_input_file_entries_outcome (input_file_path : string) (w : world) :
  match files w !! input_file_path with
  | Some content =>
      exists lines,
        load_input_file_entries input_file_path w
        = (Ok lines, logged (LoadedLines (length lines) input_file_path) w)
        /\ length lines = length (Py.file_lines content)
        /\ Forall (fun line => Py.strip line = line) lines
  | None =>
      load_input_file_entries input_file_path w
      = (Raise (SystemExit 1), logged (FileNotFound input_file_path) w)
  end.
Proof.
  unfold load_input_file_entries, mbind, M_bind, read_file.
  destruct (files w !! input_file_path) as [content|]; [|done].
  eexists. split; [done|]. split; [by rewrite length_fmap|].
  apply Forall_fmap, Forall_forall. intros line _. apply strip_idem.
Qed.

(** The entries [load_line] adds have keys and comments with no white
    space at either end. *)
Lemma load_line_inv entries line :
  NoDup (dict_keys entries)
  /\ Forall (fun kv => Py.strip kv.1 = kv.1 /\ Py.strip kv.2 = kv.2) entries ->
  NoDup (dict_keys (load_line entries line))
  /\ Forall (fun kv => Py.strip kv.1 = kv.1 /\ Py.strip kv.2 = kv.2)
       (load_line entries line).
Proof.
  intros [Hnd Hall]. unfold load_line.
  destruct (_ && _); [|done]. cbv zeta. split; [by apply dict_set_NoDup|].
  apply Forall_forall. intros [k c] [[-> ->]|Hin]%dict_set_In.
  - cbn [fst snd]. split; [apply strip_idem|].
    destruct (Py.split1 " " line) as [|p0 [|p1 [|p2 ps]]];
      try reflexivity. apply strip_idem.
  - rewrite Forall_forall in Hall. by apply Hall.
Qed.

(** X11.  [load_existing_output_file_entries] never raises and changes
    the log only.  Without a file it returns the empty mapping.  With
    one, the keys it returns are distinct, and no key and no comment has
    white space at either end. *)
Theorem load_existing_output_file_entries_outcome (output_file_path : string)
    (w : world) :
  exists entries,
    load_existing_output_file_entries output_file_path w
    = (Ok entries,
       logged (match files w !! output_file_path with
               | Some _ => LoadedEntries (length entries) output_file_path
               | None => NoExistingOutputFile output_file_path
               end) w)
    /\ NoDup (dict_keys entries)
    /\ Forall (fun kv => Py.strip kv.1 = kv.1 /\ Py.strip kv.2 = kv.2) entries
    /\ (files w !! output_file_path = None -> entries = []).
Proof.
  unfold load_existing_output_file_entries, mbind, M_bind, read_file.
  destruct (files w !! output_file_path) as [content|].
  - eexists. split; [done|].
    enough (forall lines d,
              NoDup (dict_keys d)
              /\ Forall (fun kv => Py.strip kv.1 = kv.1 /\ Py.strip kv.2 = kv.2) d ->
              NoDup (dict_keys (fold_left load_line lines d))
              /\ Forall (fun kv => Py.strip kv.1 = kv.1 /\ Py.strip kv.2 = kv.2)
                   (fold_left load_line lines d)) as Hfold.
    { destruct (Hfold (Py.file_lines content) []) as [? ?];
        [split; constructor | done]. }
    induction lines as [|line lines IH]; intros d Hd; [done|].
    cbn [fold_left]. by apply IH, load_line_inv.
  - exists []. split; [done|]. split; [constructor|]. split; [constructor | done].
Qed.

(** ** [fetch_whois_info] *)

Lemma logged_all_app ms ms' w :
  logged_all (ms ++ ms') w = logged_all ms' (logged_all ms w).
Proof. unfold logged_all. by rewrite fold_left_app. Qed.

Lemma registry_logged_all ms w : registry (logged_all ms w) = registry w.
Proof.
  revert w. induction ms as [|m ms IH]; intros w; [done|].
  cbn [logged_all fold_left]. fold (logged_all ms (logged m w)). by rewrite IH.
Qed.

(** The loop of [fetch_whois_info], for a body that sets the comment of
    an entry that has one and logs an entry that has none. *)
Lemma fetch_loop
    (comment_of : (string -> option whois_response) -> string -> option string)
    (body : dict string -> string -> M (dict string)) entries :
  (forall acc e w,
     body acc e w
     = match comment_of (registry w) e with
       | Some c => (Ok (dict_set e c acc), w)
       | None => (Ok acc, logged (ErrorProcessing e) w)
       end) ->
  forall acc w,
    NoDup (dict_keys acc) ->
    exists out,
      for_each entries body acc w
      = (Ok out,
         logged_all
           (ErrorProcessing
              <$> List.filter
                    (fun e => bool_decide (comment_of (registry w) e = None))
                    entries)
           w)
      /\ NoDup (dict_keys out)
      /\ forall e,
           dict_get e out
           = if decide (e ∈ entries) then
               match comment_of (registry w) e with
               | Some c => Some c
               | None => dict_get e acc
               end
             else dict_get e acc.
Proof.
  intros Hbody. induction entries as [|x entries IH]; intros acc w Hnd.
  - exists acc. split; [done|]. split; [done|]. intros e.
    by rewrite decide_False by apply not_elem_of_nil.
  - cbn [for_each List.filter]. unfold mbind, M_bind. rewrite Hbody.
    destruct (comment_of (registry w) x) as [c|] eqn:Hx.
    + rewrite bool_decide_eq_false_2 by done.
      destruct (IH (dict_set x c acc) w) as (out & -> & Hnd' & Hget);
        [by apply dict_set_NoDup|].
      exists out. split; [done|]. split; [done|]. intros e. rewrite Hget.
      rewrite dict_get_set.
      destruct (String.eqb_spec e x) as [->|Hne].
      * rewrite (decide_True (P := x ∈ x :: entries)) by left.
        rewrite Hx. by case_decide.
      * destruct (decide (e ∈ entries)) as [Hin|Hin].
        -- rewrite decide_True by (by right). done.
        -- rewrite decide_False; [done|]. by intros [?|?]%elem_of_cons.
    + rewrite bool_decide_eq_true_2 by done.
      destruct (IH acc (logged (ErrorProcessing x) w)) as (out & Hrun & Hnd' & Hget);
        [done|].
      change (registry (logged (ErrorProcessing x) w)) with (registry w)
        in Hrun, Hget.
      exists out. split; [exact Hrun|]. split; [done|]. intros e. rewrite Hget.
      destruct (decide (e = x)) as [->|Hne].
      * rewrite (decide_True (P := x ∈ x :: entries)) by left.
        rewrite Hx. by case_decide.
      * destruct (decide (e ∈ entries)) as [Hin|Hin].
        -- rewrite decide_True by (by right). done.
        -- rewrite decide_False; [done|]. by intros [?|?]%elem_of_cons.
Qed.

(** X12.  [fetch_whois_info] never raises and changes the log only.  The
    mapping it returns has, for an entry of the list, the comment the
    entry has already, else the answer of the registry, and nothing when
    the lookup fails; it has no other key.  Every failed lookup is
    logged. *)
Theorem fetch_whois_info_lookup (entries : list string)
    (existing_entries : dict string) (w : world) :
  exists out,
    fetch_whois_info entries existing_entries w
    = (Ok out,
       logged WhoisProcessed
         (logged_all
            (ErrorProcessing
               <$> List.filter
                     (fun e => bool_decide
                                 (whois_comment (registry w) existing_entries e
                                  = None)) entries)
            (logged StartFetchingWhois w)))
    /\ NoDup (dict_keys out)
    /\ forall e,
         dict_get e out
         = if decide (e ∈ entries)
           then whois_comment (registry w) existing_entries e
           else None.
Proof.
  unfold fetch_whois_info.
  match goal with
  | |- context [for_each entries ?b []] => set (body := b)
  end.
  destruct (fetch_loop (fun r => whois_comment r existing_entries) body entries)
    with (acc := @nil (string * string)) (w := logged StartFetchingWhois w)
    as (out & Hrun & Hnd & Hget).
  - intros acc e w0. unfold body, whois_comment.
    destruct (dict_get e existing_entries); [done|].
    unfold mbind, M_bind, whois_request.
    by destruct (registry w0 _).
  - constructor.
  - change (registry (logged StartFetchingWhois w)) with (registry w)
      in Hrun, Hget.
    exists out. unfold mbind, M_bind.
    change (logging StartFetchingWhois w)
      with (Ok tt, logged StartFetchingWhois w).
    cbv beta iota. rewrite Hrun. split; [done|].
    split; [done|]. intros e. rewrite Hget. case_decide; [|done].
    by destruct (whois_comment _ _ _).
Qed.

(** ** [write_to_output_file]: when it succeeds, and what it leaves *)

(** X13.  [write_to_output_file] never raises.  It returns [True] exactly
    when the number of entries is within its cap, the file can be opened
    and the text written is within the size cap; the file then holds the
    rendered entries.  No other file changes, and nothing is called on
    the repository. *)
Theorem write_to_output_file_success (entries : dict string) (path : string)
    (config : config) (w : world) :
  exists b w',
    write_to_output_file entries path config w = (Ok b, w')
    /\ (b = true <->
        (Z.of_nat (length entries) <= fg_max_entries config)%Z
        /\ (path ∉ unwritable w)
        /\ (Py.utf8_size (render_entries (fg_max_comment_length config) entries)
            <= fg_max_size_bytes config)%Z)
    /\ (b = true ->
        files w' !! path
        = Some (render_entries (fg_max_comment_length config) entries))
    /\ (forall p, p <> path -> files w' !! p = files w !! p)
    /\ git_calls w' = git_calls w.
Proof.
  rewrite write_to_output_file_run.
  destruct (Z.ltb_spec (fg_max_entries config) (Z.of_nat (length entries))).
  { eexists _, _. split; [done|]. split_and!; try done. split; [done | lia]. }
  case_decide.
  { eexists _, _. split; [done|]. split_and!; try done.
    split; [done | by intros (_ & ? & _)]. }
  cbv zeta.
  destruct (Z.ltb_spec (fg_max_size_bytes config)
              (Py.utf8_size (render_entries (fg_max_comment_length config) entries))).
  - eexists _, _. split; [done|]. split_and!; try done.
    + split; [done | lia].
    + intros p Hp. unfold logged, logging, written. cbn [snd files set_files].
      by rewrite lookup_insert_ne.
  - eexists _, _. split; [done|]. split_and!; try done.
    + intros _. unfold logged, logging, written. cbn [snd files set_files].
      by rewrite lookup_insert_eq.
    + intros p Hp. unfold logged, logging, written. cbn [snd files set_files].
      by rewrite lookup_insert_ne.
Qed.

Lemma len_append (a b : string) : Py.len (a ++ b) = (Py.len a + Py.len b)%Z.
Proof.
  unfold Py.len. induction a as [|x a IH]; cbn [String.append String.length].
  - lia.
  - lia.
Qed.

Lemma length_take n s : String.length (Py.take n s) = Nat.min n (String.length s).
Proof.
  revert s. induction n as [|n IH]; intros [|a s]; cbn; try done.
  by rewrite IH.
Qed.

(** X14.  With a comment length of five or more, the comment of a
    rendered line, with its [# ] mark, has at most [max_comment_length]
    characters; a comment of at most [max_comment_length - 2] characters
    is written whole. *)
Theorem render_entry_comment_bound (max_comment_length : Z)
    (entry comment : string) :
  (5 <= max_comment_length)%Z -> comment <> "" ->
  exists body,
    render_entry max_comment_length entry comment
    = (entry ++ " " ++ "# " ++ body ++ String Py.LF "")%string
    /\ (Py.len ("# " ++ body) <= max_comment_length)%Z
    /\ ((Py.len comment <= max_comment_length - 2)%Z -> body = comment).
Proof.
  intros Hmax Hne. unfold render_entry.
  destruct (String.eqb_spec comment "") as [?|_]; [done|]. cbv zeta.
  destruct (Z.ltb_spec (max_comment_length - 2) (Py.len comment)) as [Hlong|Hshort].
  - exists (Py.slice_to (max_comment_length - 5) comment ++ "...")%string.
    split; [by rewrite !append_assoc|]. split; [|lia].
    rewrite !len_append. unfold Py.slice_to.
    destruct (Z.leb_spec 0 (max_comment_length - 5)); [|lia].
    unfold Py.len at 2. rewrite length_take. unfold Py.len. cbn [String.length]. lia.
  - exists comment. split; [done|]. split; [|done].
    rewrite len_append. unfold Py.len in *. cbn [String.length]. lia.
Qed.

(** A comment of twenty-two characters, cut to ten. *)
Lemma render_entry_comment_bound_example :
  exists body,
    render_entry 10 "1.2.3.4/32" "Germany | Berlin | ISP"
    = ("1.2.3.4/32" ++ " " ++ "# " ++ body ++ String Py.LF "")%string
    /\ (Py.len ("# " ++ body) <= 10)%Z
    /\ ((Py.len "Germany | Berlin | ISP" <= 10 - 2)%Z
        -> body = "Germany | Berlin | ISP").
Proof.
  apply (render_entry_comment_bound 10 "1.2.3.4/32" "Germany | Berlin | ISP").
  - lia.
  - discriminate.
Defined.

(** ** What the steps leave of the world *)

Lemma frame_refl outs w : frame outs w w.
Proof. unfold frame. split_and!; try done. exists []. by rewrite app_nil_r. Qed.

Lemma frame_trans outs w1 w2 w3 :
  frame outs w1 w2 -> frame outs w2 w3 -> frame outs w1 w3.
Proof.
  intros (Hf & Hu & Hr & Hc & Hd & Hx & Hg & ms & Hl)
         (Hf' & Hu' & Hr' & Hc' & Hd' & Hx' & Hg' & ms' & Hl').
  unfold frame. split_and!; try congruence.
  - intros p Hp. by rewrite Hf', Hf.
  - exists (ms ++ ms'). by rewrite Hl', Hl, <- app_assoc.
Qed.

Lemma frame_logged outs m w : frame outs w (logged m w).
Proof. unfold frame. split_and!; try done. by exists [m]. Qed.

Lemma frame_set_files outs path text w :
  path ∈ outs -> frame outs w (set_files (<[path := text]> (files w)) w).
Proof.
  intros Hin. unfold frame. split_and!; try done.
  - intros p Hp. cbn [files set_files]. apply lookup_insert_ne. by intros ->.
  - exists []. by rewrite app_nil_r.
Qed.

Lemma keeps_ret {A} outs (a : A) : keeps outs (mret a).
Proof. intros w. apply frame_refl. Qed.

Lemma keeps_raise {A} outs e : keeps outs (raise e : M A).
Proof. intros w. apply frame_refl. Qed.

Lemma keeps_lift {A} outs (r : result A) : keeps outs (lift r).
Proof. intros w. apply frame_refl. Qed.

Lemma keeps_git_query {A} outs op (answer : world -> A) :
  keeps outs (git_query op answer).
Proof. intros w. apply frame_refl. Qed.

Lemma keeps_read_file outs path : keeps outs (read_file path).
Proof. intros w. apply frame_refl. Qed.

Lemma keeps_getsize outs path : keeps outs (getsize path).
Proof. intros w. apply frame_refl. Qed.

Lemma keeps_whois_request outs a : keeps outs (whois_request a).
Proof. intros w. apply frame_refl. Qed.

Lemma keeps_logging outs m : keeps outs (logging m).
Proof. intros w. apply frame_logged. Qed.

Lemma keeps_open_w outs path : path ∈ outs -> keeps outs (open_w path).
Proof.
  intros Hin w. unfold open_w. case_decide; [apply frame_refl|].
  by apply frame_set_files.
Qed.

Lemma keeps_file_write outs path text :
  path ∈ outs -> keeps outs (file_write path text).
Proof. intros Hin w. by apply frame_set_files. Qed.

Lemma keeps_bind {A B} outs (m : M A) (k : A -> M B) :
  keeps outs m -> (forall a, keeps outs (k a)) -> keeps outs (m ≫= k).
Proof.
  intros Hm Hk w. unfold mbind, M_bind. specialize (Hm w).
  destruct (m w) as [[a|e] w']; [|done].
  eapply frame_trans; [exact Hm | apply Hk].
Qed.

Lemma keeps_for_each {A S} outs (l : list A) (body : S -> A -> M S) s :
  (forall s x, keeps outs (body s x)) -> keeps outs (for_each l body s).
Proof.
  intros Hbody. revert s. induction l as [|x l IH]; intros s; cbn [for_each].
  - apply keeps_ret.
  - apply keeps_bind; [apply Hbody | apply IH].
Qed.

Create HintDb keeps.
#[local] Hint Resolve keeps_ret keeps_raise keeps_lift keeps_git_query keeps_read_file
  keeps_getsize keeps_whois_request keeps_logging keeps_open_w keeps_file_write
  : keeps.

(** One step of a proof that a function keeps the frame: through a bind,
    a loop, a branch. *)
Ltac keeps_tac :=
  repeat first
    [ progress (cbv beta zeta)
    | apply keeps_bind; [|intros ?]
    | apply keeps_for_each; intros ? ?
    | solve [eauto with keeps]
    | match goal with
      | |- keeps _ (match ?x with _ => _ end) => destruct x
      end ].

Lemma keeps_load_input_file_entries outs path :
  keeps outs (load_input_file_entries path).
Proof. unfold load_input_file_entries. keeps_tac. Qed.

Lemma keeps_load_existing_output_file_entries outs path :
  keeps outs (load_existing_output_file_entries path).
Proof. unfold load_existing_output_file_entries. keeps_tac. Qed.

Lemma keeps_remove_duplicates outs addresses :
  keeps outs (remove_duplicates addresses).
Proof. unfold remove_duplicates. keeps_tac. Qed.

Lemma keeps_validate_ip_addresses outs addresses :
  keeps outs (validate_ip_addresses addresses).
Proof. unfold validate_ip_addresses. keeps_tac. Qed.

Lemma keeps_group_ips_into_subnets outs addresses threshold :
  keeps outs (group_ips_into_subnets addresses threshold).
Proof. unfold group_ips_into_subnets. keeps_tac. Qed.

Lemma keeps_sort_entries_by_cidr outs entries :
  keeps outs (sort_entries_by_cidr entries).
Proof. unfold sort_entries_by_cidr. keeps_tac. Qed.

Lemma keeps_fetch_whois_info outs entries existing_entries :
  keeps outs (fetch_whois_info entries existing_entries).
Proof. unfold fetch_whois_info. keeps_tac. Qed.

Lemma keeps_write_to_output_file outs entries path config :
  path ∈ outs -> keeps outs (write_to_output_file entries path config).
Proof. intros Hin. unfold write_to_output_file. keeps_tac. Qed.

#[local] Hint Resolve keeps_load_input_file_entries
  keeps_load_existing_output_file_entries keeps_remove_duplicates
  keeps_validate_ip_addresses keeps_group_ips_into_subnets
  keeps_sort_entries_by_cidr keeps_fetch_whois_info keeps_write_to_output_file
  : keeps.

Lemma keeps_process_lists outs input_file_path output_file_path config :
  output_file_path ∈ outs ->
  keeps outs (process_lists input_file_path output_file_path config).
Proof. intros Hin. unfold process_lists. keeps_tac. Qed.

Lemma keeps_process_file config acc file_name :
  keeps (output_paths config) (process_file config acc file_name).
Proof.
  unfold process_file. destruct acc as [[? ?] ?]. cbv zeta.
  apply keeps_bind.
  - apply keeps_process_lists. unfold output_paths.
    destruct (Py.substring_in "manual" file_name).
    + apply elem_of_union_r, elem_of_singleton. reflexivity.
    + apply elem_of_union_l, elem_of_singleton. reflexivity.
  - intros [[? ?] ?]. apply keeps_ret.
Qed.

(** X15.  [process_lists] writes no file but its output file, calls
    nothing on the repository, and only adds to the log; this holds also
    when it raises.  On a missing input file it ends the program with
    [exit(1)] before anything else is done. *)
Theorem process_lists_frame (input_file_path output_file_path : string)
    (config : config) (w : world) :
  frame {[output_file_path]} w
    (process_lists input_file_path output_file_path config w).2
  /\ (files w !! input_file_path = None ->
      process_lists input_file_path output_file_path config w
      = (Raise (SystemExit 1), logged (FileNotFound input_file_path) w)).
Proof.
  split.
  - apply keeps_process_lists. by apply elem_of_singleton.
  - intros Hnone. unfold process_lists, mbind, M_bind.
    unfold load_input_file_entries at 1. unfold mbind, M_bind, read_file.
    by rewrite Hnone.
Qed.

